(** * signingscript.task: a shallow embedding and its verified properties

    The development follows [signingscript/task.py]: the format orderer
    [_sort_formats], the format resolver
    [_get_signing_function_from_format] over the registry
    [FORMAT_TO_SIGNING_FUNCTION], the scope authorizer [task_cert_type],
    the upstream artifact resolver [build_filelist_dict], and the archive
    lifecycle of [sign] and [make_archive]. *)

From Stdlib Require Import String Ascii List Bool Arith Lia Permutation.
From stdpp Require Import base tactics option list strings gmap.

Local Open Scope string_scope.
Local Open Scope list_scope.

(** ** Python values shared by the whole module

    Strings are sequences of ASCII characters. *)

Module Py.

(** [list.remove(x)]: drops the first occurrence of [x].  Python raises
    [ValueError] when [x] is absent; every call site in [task.py] is guarded
    by [x in l], and on an absent element the list is handed back as is. *)
Fixpoint list_remove (x : string) (l : list string) : list string :=
  match l with
  | [] => []
  | y :: l' => if decide (x = y) then l' else y :: list_remove x l'
  end.

(** [list.append(x)]. *)
Definition list_append (l : list string) (x : string) : list string :=
  l ++ [x].

(** [x in l]. *)
Definition contains (x : string) (l : list string) : bool :=
  bool_decide (x ∈ l).

(** [s.startswith(prefix)] and [s.endswith(suffix)]. *)
Definition startswith (s prefix : string) : bool := String.prefix prefix s.

Fixpoint endswith (s suffix : string) : bool :=
  bool_decide (s = suffix) ||
  match s with
  | EmptyString => false
  | String _ s' => endswith s' suffix
  end.

(** The text of an exception or log message.  [str.format] and the [repr] of
    a sequence are kept symbolic: [Format t args] stands for
    [t.format( *args)] and [Repr l] for the rendering of a sequence. *)
#[warnings="-register-all"]
Inductive message : Type :=
| Text (s : string)
| Format (template : string) (args : list message)
| Repr (items : list message).

(** What Python's [str]/[repr] does on the values that end up in messages. *)
Class PyRepr (A : Type) := py_repr : A → message.
Global Instance string_repr : PyRepr string := Text.
Global Instance list_repr {A} `{!PyRepr A} : PyRepr (list A) :=
  λ l, Repr (map py_repr l).
Global Instance pair_repr {A B} `{!PyRepr A, !PyRepr B} : PyRepr (A * B) :=
  λ p, Repr [py_repr p.1; py_repr p.2].

(** The exceptions that can cross the functions of [task.py]. *)
Inductive exn : Type :=
| ValueError (m : message)
| TaskVerificationError (m : message)
| KeyError (key : string)
| TypeError (m : message)
| re_error (pattern : string)
| BackendError (m : message).

(** A computation that returns or raises. *)
Inductive result (A : Type) : Type :=
| Ok (a : A)
| Err (e : exn).
Global Arguments Ok {A} a.
Global Arguments Err {A} e.

Global Instance result_ret : MRet result := @Ok.

(** [if r:] for a condition that may raise. *)
Global Instance holds_dec (r : result bool) : Decision (r = Ok true).
Proof. destruct r as [[]|]; [left|right|right]; congruence. Defined.

Global Instance result_bind : MBind result := λ A B k r,
  match r with
  | Ok a => k a
  | Err e => Err e
  end.

(** A list comprehension [[x for x in l if cond(x)]] whose condition may
    raise: the first exception ends it. *)
Fixpoint filterM {A} (cond : A → result bool) (l : list A) : result (list A) :=
  match l with
  | [] => Ok []
  | x :: l' =>
      b ← cond x;
      rest ← filterM cond l';
      Ok (if b : bool then x :: rest else rest)
  end.

(** [d.get(key)] and [d.get(key, default)] on a dict given by its items. *)
Fixpoint dict_lookup {V} (d : list (string * V)) (key : string) : option V :=
  match d with
  | [] => None
  | (k, v) :: d' => if decide (k = key) then Some v else dict_lookup d' key
  end.

Definition dict_get {V} (d : list (string * V)) (key : string) (dflt : V) : V :=
  default dflt (dict_lookup d key).

(** [d[key]]. *)
Definition dict_getitem {V} (d : list (string * V)) (key : string) : result V :=
  match dict_lookup d key with
  | Some v => Ok v
  | None => Err (KeyError key)
  end.

End Py.

(** ** Format Orderer *)

Module Orderer.

(** The tuple the [for] loop of [_sort_formats] walks through. *)
Definition priority : list string :=
  [ "widevine"; "autograph_widevine"; "autograph_omnija";
    "macapp"; "gpg"; "autograph_gpg" ].

(** Body of the loop: [if fmt in formats: formats.remove(fmt);
    formats.append(fmt)]. *)
Definition sort_step (formats : list string) (fmt : string) : list string :=
  if Py.contains fmt formats
  then Py.list_append (Py.list_remove fmt formats) fmt
  else formats.

(** The loop over an arbitrary tuple of formats; [_sort_formats] runs it on
    [priority]. *)
Definition sort_with (ps : list string) (formats : list string) : list string :=
  foldl sort_step formats ps.

(** [_sort_formats(formats)], as a function on the contents of the list.
    The Python function updates the list object in place and returns that
    same object; the in-place reading is [ArtifactResolver.sort_formats_at]. *)
Definition _sort_formats (formats : list string) : list string :=
  sort_with priority formats.

(** The formats the orderer leaves where they are, in their order. *)
Definition unordered_part (formats : list string) : list string :=
  filter (λ f, f ∉ priority) formats.

(** The occurrences of priority formats in a request. *)
Definition priority_part (formats : list string) : list string :=
  filter (λ f, f ∈ priority) formats.

End Orderer.


(** ** Regular expressions: the part of Python's [re] the registry uses *)

Module Re.

(** Regular expressions over characters.  [a+] is [Seq a (Star a)] and [a?]
    is [Alt a Eps]. *)
Inductive regex : Type :=
| Void                      (* matches nothing *)
| Eps                       (* matches the empty string *)
| Chr (c : ascii)           (* a literal character *)
| Dot                       (* [.]: any character but a newline *)
| Word                      (* [\w]: a letter, a digit or an underscore *)
| Seq (r1 r2 : regex)
| Alt (r1 r2 : regex)
| Star (r : regex).

Definition Plus (r : regex) : regex := Seq r (Star r).
Definition Opt (r : regex) : regex := Alt r Eps.

Definition is_word_char (c : ascii) : bool :=
  let n := nat_of_ascii c in
  (((48 <=? n) && (n <=? 57)) || ((65 <=? n) && (n <=? 90))
   || ((97 <=? n) && (n <=? 122)) || (n =? 95))%nat.

Definition is_newline (c : ascii) : bool := (nat_of_ascii c =? 10)%nat.

(** Characters with a meaning of their own in a pattern. *)
Definition is_special (c : ascii) : bool :=
  bool_decide (c ∈ list_ascii_of_string ".^$*+?{}[]\|()").

(** A quantifier after an atom: [*], [+], [?]. *)
Definition quantified (r : regex) (s : list ascii) : regex * list ascii :=
  match s with
  | "*"%char :: s' => (Star r, s')
  | "+"%char :: s' => (Plus r, s')
  | "?"%char :: s' => (Opt r, s')
  | _ => (r, s)
  end.

(** The parser: [acc] is the sequence read so far; parsing stops at the end of
    the pattern or in front of a closing parenthesis.  Syntax outside the
    subset (classes, anchors, counted and lazy repetition, group flags, other
    escapes) is refused with [None], as is a pattern Python refuses. *)
Fixpoint parse (fuel : nat) (acc : regex) (s : list ascii)
    : option (regex * list ascii) :=
  match fuel with
  | 0 => None
  | S fuel' =>
      match s with
      | [] => Some (acc, [])
      | ")"%char :: _ => Some (acc, s)
      | "|"%char :: s' =>
          '(r, rest) ← parse fuel' Eps s';
          Some (Alt acc r, rest)
      | "("%char :: s' =>
          '(r, rest) ← parse fuel' Eps s';
          match rest with
          | ")"%char :: rest' =>
              let '(q, rest'') := quantified r rest' in
              parse fuel' (Seq acc q) rest''
          | _ => None
          end
      | "\"%char :: c :: s' =>
          if bool_decide (c = "w"%char) then
            let '(q, rest) := quantified Word s' in
            parse fuel' (Seq acc q) rest
          else if is_special c then
            let '(q, rest) := quantified (Chr c) s' in
            parse fuel' (Seq acc q) rest
          else None
      | "."%char :: s' =>
          let '(q, rest) := quantified Dot s' in
          parse fuel' (Seq acc q) rest
      | c :: s' =>
          if is_special c then None
          else
            let '(q, rest) := quantified (Chr c) s' in
            parse fuel' (Seq acc q) rest
      end
  end.

(** [re.compile(pattern)]; [None] is [re.error] (or syntax left out). *)
Definition compile (pattern : string) : option regex :=
  let s := list_ascii_of_string pattern in
  match parse (S (length s)) Eps s with
  | Some (r, []) => Some r
  | _ => None
  end.

(** Does the expression match the empty string? *)
Fixpoint nullable (r : regex) : bool :=
  match r with
  | Void | Chr _ | Dot | Word => false
  | Eps | Star _ => true
  | Seq r1 r2 => nullable r1 && nullable r2
  | Alt r1 r2 => nullable r1 || nullable r2
  end.

(** What is left to match once [c] has been read. *)
Fixpoint deriv (c : ascii) (r : regex) : regex :=
  match r with
  | Void | Eps => Void
  | Chr c' => if bool_decide (c = c') then Eps else Void
  | Dot => if is_newline c then Void else Eps
  | Word => if is_word_char c then Eps else Void
  | Seq r1 r2 =>
      if nullable r1
      then Alt (Seq (deriv c r1) r2) (deriv c r2)
      else Seq (deriv c r1) r2
  | Alt r1 r2 => Alt (deriv c r1) (deriv c r2)
  | Star r1 => Seq (deriv c r1) (Star r1)
  end.

(** Some prefix of [s] is matched by [r]: this is when [re.match] finds a
    match object. *)
Fixpoint matches_prefix (r : regex) (s : list ascii) : bool :=
  nullable r ||
  match s with
  | [] => false
  | c :: s' => matches_prefix (deriv c r) s'
  end.

(** The whole of [s] is matched by [r]. *)
Fixpoint matches_whole (r : regex) (s : list ascii) : bool :=
  match s with
  | [] => nullable r
  | c :: s' => matches_whole (deriv c r) s'
  end.

(** [re.match(pattern, string) is not None]: the pattern is applied at the
    start of the string and need not reach its end. *)
Definition re_match (pattern s : string) : Py.result bool :=
  match compile pattern with
  | Some r => Py.Ok (matches_prefix r (list_ascii_of_string s))
  | None => Py.Err (Py.re_error pattern)
  end.

(** The matching the specification words: the pattern, applied at the start
    of the string, matches the string in full ([re.fullmatch]).  Nothing in
    [task.py] calls it; it is here to be compared with [re_match]. *)
Definition re_fullmatch (pattern s : string) : Py.result bool :=
  match compile pattern with
  | Some r => Py.Ok (matches_whole r (list_ascii_of_string s))
  | None => Py.Err (Py.re_error pattern)
  end.

End Re.

(** ** Format Resolver *)

Module Resolver.
Import Py.

(** The signing functions imported from [signingscript.sign]: the registry
    only names them. *)
Inductive signing_function : Type :=
| sign_gpg
| sign_jar
| sign_macapp
| sign_widevine
| sign_file
| sign_mar384_with_autograph_hash
| sign_gpg_with_autograph
| sign_omnija
| sign_langpack
| sign_authenticode_zip.

Global Instance signing_function_eq_dec : EqDecision signing_function.
Proof. solve_decision. Defined.

Global Instance signing_function_repr : PyRepr signing_function := λ f,
  Text match f with
       | sign_gpg => "sign_gpg"
       | sign_jar => "sign_jar"
       | sign_macapp => "sign_macapp"
       | sign_widevine => "sign_widevine"
       | sign_file => "sign_file"
       | sign_mar384_with_autograph_hash => "sign_mar384_with_autograph_hash"
       | sign_gpg_with_autograph => "sign_gpg_with_autograph"
       | sign_omnija => "sign_omnija"
       | sign_langpack => "sign_langpack"
       | sign_authenticode_zip => "sign_authenticode_zip"
       end.

(** The registry, by its items in the order of the literal. *)
Definition FORMAT_TO_SIGNING_FUNCTION : list (string * signing_function) :=
  [ ("autograph_focus", sign_jar);
    ("autograph_apk_.+", sign_jar);
    ("autograph_hash_only_mar384(:\w+)?", sign_mar384_with_autograph_hash);
    ("autograph_stage_mar384(:\w+)?", sign_mar384_with_autograph_hash);
    ("gpg", sign_gpg);
    ("autograph_gpg", sign_gpg_with_autograph);
    ("jar", sign_jar);
    ("focus-jar", sign_jar);
    ("macapp", sign_macapp);
    ("widevine", sign_widevine);
    ("autograph_widevine", sign_widevine);
    ("autograph_omnija", sign_omnija);
    ("autograph_langpack", sign_langpack);
    ("autograph_authenticode", sign_authenticode_zip);
    ("autograph_authenticode_stub", sign_authenticode_zip);
    ("default", sign_file) ].

(** Modelled from the spec: [get_single_item_from_sequence] comes from the
    scriptworker library ([scriptworker.utils]); [task.py] imports it.  It
    keeps the items that satisfy the condition and returns the only one; with
    none or with several it raises [ErrorClass] (a [ValueError] unless told
    otherwise) with the matching message, followed by the sequence it was
    given. *)
Definition get_single_item_from_sequence {A} `{!PyRepr A}
    (sequence : list A) (condition : A → result bool)
    (ErrorClass : message → exn)
    (no_item_error_message too_many_item_error_message : message) : result A :=
  filtered_sequence ← filterM condition sequence;
  match filtered_sequence with
  | [item] => Ok item
  | [] =>
      Err (ErrorClass (Format "{}. Given: {}"
                         [no_item_error_message; py_repr sequence]))
  | _ =>
      Err (ErrorClass (Format "{}. Given: {}"
                         [too_many_item_error_message; py_repr sequence]))
  end.

(** The messages [get_single_item_from_sequence] uses when given none. *)
Definition no_item_matched : message := Text "No item matched condition".
Definition too_many_items_matched : message :=
  Text "Too many items matched condition".

(** [_get_signing_function_from_format(format)]. *)
Definition _get_signing_function_from_format (format : string)
    : result signing_function :=
  match get_single_item_from_sequence FORMAT_TO_SIGNING_FUNCTION
          (λ item, Re.re_match item.1 format)
          ValueError no_item_matched too_many_items_matched with
  | Ok (_, signing_function) => Ok signing_function
  | Err (ValueError _) =>
      (* Regex may catch several candidates: fall back to the exact match, and
         to the default when nothing matches. *)
      dflt ← dict_getitem FORMAT_TO_SIGNING_FUNCTION "default";
      Ok (dict_get FORMAT_TO_SIGNING_FUNCTION format dflt)
  | Err e => Err e
  end.

(** The registry keys that, as patterns, match a requested format the way
    [re.match] does. *)
Definition matching_items (format : string) : list (string * signing_function) :=
  filter (λ item, Re.re_match item.1 format = Ok true)
         FORMAT_TO_SIGNING_FUNCTION.

(** The registry keys that match a requested format in full, the way the
    specification words it. *)
Definition fully_matching_items (format : string) : list (string * signing_function) :=
  filter (λ item, Re.re_fullmatch item.1 format = Ok true)
         FORMAT_TO_SIGNING_FUNCTION.

End Resolver.

(** ** The signing context *)

Module Data.

(** A reference to a list object of the Python heap. *)
Definition loc := nat.

(** One entry of [payload.upstreamArtifacts].  [formats] is a list object:
    the entry holds a reference to it, and so does whoever is handed
    [artifact_dict["formats"]]. *)
Record artifact_dict : Type := {
  taskId : string;
  paths : list string;
  formats : loc
}.

Record payload_dict : Type := {
  upstreamArtifacts : list artifact_dict
}.

Record task_dict : Type := {
  scopes : list string;
  payload : payload_dict
}.

Record config_dict : Type := {
  taskcluster_scope_prefixes : list string;
  work_dir : string
}.

(** [context.task] is [None] until a task is claimed. *)
Record Context : Type := {
  task : option task_dict;
  config : config_dict
}.

End Data.

(** ** Scope Authorizer *)

Module Authorizer.
Import Py Data Resolver.

(** [_get_scope_prefixes(context, sub_namespace)]. *)
Definition _get_scope_prefixes (context : Context) (sub_namespace : string)
    : list string :=
  let prefixes := taskcluster_scope_prefixes (config context) in
  let prefixes :=
    map (λ prefix, if endswith prefix ":" then prefix else prefix +:+ ":")
        prefixes in
  map (λ prefix, prefix +:+ sub_namespace +:+ ":") prefixes.

(** [_get_cert_prefixes(context)]. *)
Definition _get_cert_prefixes (context : Context) : list string :=
  _get_scope_prefixes context "cert".

(** [_check_scopes_exist_and_all_have_the_same_prefix]: the [for] loop breaks
    at the first prefix every scope starts with; its [else] raises. *)
Fixpoint check_prefixes_loop (scopes all_prefixes prefixes : list string)
    : result unit :=
  match prefixes with
  | [] =>
      Err (TaskVerificationError
             (Format
                "Scopes must exist and all have the same prefix. Given scopes: {}. Allowed prefixes: {}"
                [py_repr scopes; py_repr all_prefixes]))
  | prefix :: rest =>
      if forallb (λ scope, startswith scope prefix) scopes
      then Ok ()
      else check_prefixes_loop scopes all_prefixes rest
  end.

Definition _check_scopes_exist_and_all_have_the_same_prefix
    (scopes prefixes : list string) : result unit :=
  check_prefixes_loop scopes prefixes prefixes.

(** The comprehension
    [[scope for scope in scopes for prefix in prefixes
      if scope.startswith(prefix)]]: one entry per scope and per prefix the
    scope starts with. *)
Definition scopes_with_prefix (scopes prefixes : list string) : list string :=
  scope ← scopes;
  prefix ← prefixes;
  if startswith scope prefix then [scope] else [].

(** [_extract_scopes_from_unique_prefix(scopes, prefixes)]. *)
Definition _extract_scopes_from_unique_prefix (scopes prefixes : list string)
    : result (list string) :=
  let scopes := scopes_with_prefix scopes prefixes in
  _ ← _check_scopes_exist_and_all_have_the_same_prefix scopes prefixes;
  Ok scopes.

(** [task_cert_type(context)]. *)
Definition task_cert_type (context : Context) : result string :=
  match task context with
  | None => Err (TaskVerificationError (Text "No scopes found"))
  | Some t =>
      match scopes t with
      | [] => Err (TaskVerificationError (Text "No scopes found"))
      | _ =>
          let prefixes := _get_cert_prefixes context in
          scopes ← _extract_scopes_from_unique_prefix (scopes t) prefixes;
          get_single_item_from_sequence scopes
            (λ _, Ok true)
            TaskVerificationError
            (Format "No scope starting with any of these prefixes {} found"
                    [py_repr prefixes])
            (Text "More than one scope found")
      end
  end.

(** The scopes of a task that start with one of the prefixes, each scope of
    the list once: what "the scopes matching the prefixes" reads as when the
    prefixes are not counted. *)
Definition matching_scopes (scopes prefixes : list string) : list string :=
  filter (λ scope, Exists (λ prefix, startswith scope prefix = true) prefixes)
         scopes.

(** A configuration that names the same prefix with and without the final
    colon, and a task with a single certificate scope. *)
Definition twice_configured : Context :=
  {| task := Some {| scopes := ["project:releng:signing:cert:dep-signing";
                                "queue:route:index.project.releng"];
                     payload := {| upstreamArtifacts := [] |} |};
     config := {| taskcluster_scope_prefixes :=
                    ["project:releng:signing"; "project:releng:signing:"];
                  work_dir := "/builds/scriptworker/work" |} |}.

(** A configuration with two signing prefixes. *)
Definition two_prefixes (task_scopes : list string) : Context :=
  {| task := Some {| scopes := task_scopes;
                     payload := {| upstreamArtifacts := [] |} |};
     config := {| taskcluster_scope_prefixes :=
                    ["project:releng:signing";
                     "project:comm:thunderbird:releng:signing:"];
                  work_dir := "/builds/scriptworker/work" |} |}.

End Authorizer.

(** ** Upstream Artifact Resolver *)

Module ArtifactResolver.
Import Py Data Orderer.

(** [posixpath.join(a, *p)]: an absolute component restarts the path; a
    separator is added unless the path so far is empty or ends with one. *)
Definition join_step (path b : string) : string :=
  if startswith b "/" then b
  else if bool_decide (path = "") || endswith path "/" then path +:+ b
  else path +:+ "/" +:+ b.

Definition os_path_join (a : string) (p : list string) : string :=
  foldl join_step a p.

(** The list objects of the Python heap, by reference.  A reference that is
    not bound reads as the empty list. *)
Abbreviation heap := (gmap loc (list string)).

(** [_sort_formats(formats)] on a list object: the object is reordered in
    place and the same reference is returned. *)
Definition sort_formats_at (formats : loc) (h : heap) : heap * loc :=
  (<[formats := _sort_formats (h !!! formats)]> h, formats).

(** A value of [filelist_dict]: [{"full_path": ..., "formats": ...}], the
    formats being a reference to a list object. *)
Module FileEntry.
Record t : Type := {
  full_path : string;
  formats : loc
}.
End FileEntry.

Abbreviation filelist := (gmap string FileEntry.t).

Section Disk.

(** [os.path.exists]: the files staged on disk when the function runs. *)
Variable os_path_exists : string → bool.

(** The state of the two loops: heap, [filelist_dict], [messages]. *)
Definition loop_state : Type := heap * filelist * list string.

(** Body of the inner loop, [for path in artifact_dict["paths"]]. *)
Definition path_step (context : Context) (artifact_dict : artifact_dict)
    (st : loop_state) (path : string) : loop_state :=
  let '(h, filelist_dict, messages) := st in
  let full_path :=
    os_path_join (work_dir (config context))
                 ["cot"; taskId artifact_dict; path] in
  let messages :=
    if os_path_exists full_path then messages
    else list_append messages (full_path +:+ " doesn't exist!") in
  let '(h, sorted) := sort_formats_at (Data.formats artifact_dict) h in
  (h,
   <[path := {| FileEntry.full_path := full_path;
                FileEntry.formats := sorted |}]> filelist_dict,
   messages).

(** Body of the outer loop,
    [for artifact_dict in context.task["payload"]["upstreamArtifacts"]]. *)
Definition artifact_step (context : Context) (st : loop_state)
    (artifact_dict : artifact_dict) : loop_state :=
  foldl (path_step context artifact_dict) st (paths artifact_dict).

(** The body of the two loops taken as one, on a (group, path) pair. *)
Definition file_step (context : Context) (st : loop_state)
    (file : artifact_dict * string) : loop_state :=
  path_step context file.1 st file.2.

(** [build_filelist_dict(context)], run on a heap. *)
Definition build_filelist_dict (context : Context) (h : heap)
    : heap * result filelist :=
  match task context with
  | None =>
      (h, Err (TypeError (Text "'NoneType' object is not subscriptable")))
  | Some t =>
      let '(h, filelist_dict, messages) :=
        foldl (artifact_step context) (h, ∅, [])
              (upstreamArtifacts (payload t)) in
      match messages with
      | [] => (h, Ok filelist_dict)
      | _ => (h, Err (TaskVerificationError (py_repr messages)))
      end
  end.

(** The (group, path) pairs a task declares, in the order of the loops. *)
Definition declared_files (t : task_dict) : list (artifact_dict * string) :=
  artifact_dict ← upstreamArtifacts (payload t);
  path ← paths artifact_dict;
  [(artifact_dict, path)].

(** Where a declared file is looked for. *)
Definition location (context : Context) (file : artifact_dict * string)
    : string :=
  os_path_join (work_dir (config context)) ["cot"; taskId file.1; file.2].

(** The entry [filelist_dict] gets for a declared file. *)
Definition declared_entry (context : Context) (file : artifact_dict * string)
    : FileEntry.t :=
  {| FileEntry.full_path := location context file;
     FileEntry.formats := Data.formats file.1 |}.

(** The line of the report for a file that is not on disk. *)
Definition missing_message (context : Context) (file : artifact_dict * string)
    : string :=
  location context file +:+ " doesn't exist!".

(** The declared files that are not on disk. *)
Definition missing_files (context : Context) (t : task_dict)
    : list (artifact_dict * string) :=
  filter (λ file, os_path_exists (location context file) = false)
         (declared_files t).

(** What a reader of the returned dict sees under a path: the absolute path
    and, through the reference, the contents of the formats list. *)
Definition read_entry (h : heap) (d : filelist) (path : string)
    : option (string * list string) :=
  e ← d !! path;
  Some (FileEntry.full_path e, h !!! FileEntry.formats e).

End Disk.

(** A task with one group of three paths, of which only ["b"] is staged. *)
Definition three_paths_task : task_dict :=
  {| scopes := [];
     payload := {| upstreamArtifacts :=
       [ {| taskId := "upstream"; paths := ["a"; "b"; "c"];
            Data.formats := 0 |} ] |} |}.

Definition three_paths : Context :=
  {| task := Some three_paths_task;
     config := {| taskcluster_scope_prefixes := [];
                  work_dir := "/work" |} |}.

Definition three_paths_heap : heap := {[ 0 := ["gpg"; "widevine"; "jar"] ]}.

Definition only_b_staged (p : string) : bool :=
  bool_decide (p = "/work/cot/upstream/b").

Definition all_staged (p : string) : bool := true.

End ArtifactResolver.

(** ** Archive Lifecycle Manager *)

Module Lifecycle.
Import Py Resolver.

(** What [output] can hold: a path, or the list or tuple of paths a signing
    function hands back when it writes detached signatures. *)
Inductive pyval : Type :=
| PStr (s : string)
| PList (l : list string)
| PTuple (l : list string).

Global Instance pyval_eq_dec : EqDecision pyval.
Proof. solve_decision. Defined.

Global Instance option_string_repr : PyRepr (option string) := λ o,
  match o with
  | Some s => Text s
  | None => Text "None"
  end.

(** The calls [sign] and [make_archive] make to the file system and to
    [signingscript.sign]; [context] is passed along unchanged and left out. *)
Inductive call : Type :=
| os_path_isdir (path : string)
| extract_archive (path : pyval)
| _get_files (dirname : pyval)
| _create_zipfile (to : string) (files : list string) (dirname : pyval)
| _create_tarfile (to : string) (files : list string) (compression : string)
                  (dirname : pyval)
| signing_func (f : signing_function) (path : pyval) (fmt : string).

(** What a call answers.  [os.path.isdir] answers for every string; the
    functions of [signingscript.sign] return or raise: unpacking and packing
    give a path, a signing function one path or several. *)
Definition answer (c : call) : Type :=
  match c with
  | os_path_isdir _ => bool
  | extract_archive _ => result string
  | _get_files _ => result (list string)
  | _create_zipfile _ _ _ => result string
  | _create_tarfile _ _ _ _ => result string
  | signing_func _ _ _ => result pyval
  end.

(** A coroutine of [task.py]: it returns, raises, or awaits the answer to a
    call and goes on. *)
Inductive prog (A : Type) : Type :=
| Ret (a : A)
| Raise (e : exn)
| Vis (c : call) (k : answer c → prog A).
Global Arguments Ret {A} a.
Global Arguments Raise {A} e.
Global Arguments Vis {A} c k.

Global Instance prog_ret : MRet prog := @Ret.

Fixpoint prog_bind_fix {A B} (k : A → prog B) (p : prog A) : prog B :=
  match p with
  | Ret a => k a
  | Raise e => Raise e
  | Vis c k' => Vis c (λ x, prog_bind_fix k (k' x))
  end.

Global Instance prog_bind : MBind prog := @prog_bind_fix.

Global Instance prog_fmap : FMap prog := λ A B f p,
  prog_bind_fix (λ a, Ret (f a)) p.

(** A value that was computed without a call, or the exception it raised. *)
Definition lift {A} (r : result A) : prog A :=
  match r with
  | Ok a => Ret a
  | Err e => Raise e
  end.

(** [await] on a function of [signingscript.sign]. *)
Definition await_extract_archive (output : pyval) : prog string :=
  Vis (extract_archive output) lift.

Definition await_get_files (dirname : pyval) : prog (list string) :=
  Vis (_get_files dirname) lift.

Definition await_create_zipfile (to : string) (files : list string)
    (dirname : pyval) : prog string :=
  Vis (_create_zipfile to files dirname) lift.

Definition await_create_tarfile (to : string) (files : list string)
    (compression : string) (dirname : pyval) : prog string :=
  Vis (_create_tarfile to files compression dirname) lift.

Definition await_signing_func (f : signing_function) (output : pyval)
    (fmt : string) : prog pyval :=
  Vis (signing_func f output fmt) lift.

(** [os.path.isdir(output)]: a list or a tuple is no path. *)
Definition isdir (output : pyval) : prog bool :=
  match output with
  | PStr s => Vis (os_path_isdir s) Ret
  | _ =>
      Raise (TypeError
               (Text "stat: path should be string, bytes, os.PathLike or integer"))
  end.

(** [s.split(sep)] for a separator of one character. *)
Fixpoint split_on (sep : ascii) (s : string) : list string :=
  match s with
  | EmptyString => [""]
  | String c s' =>
      if bool_decide (c = sep) then "" :: split_on sep s'
      else
        match split_on sep s' with
        | [] => [String c ""]
        | w :: ws => String c w :: ws
        end
  end.

(** [make_archive(context, dirname, archive_ext, output)]. *)
Definition make_archive (dirname : pyval) (archive_ext : option string)
    (output : string) : prog string :=
  files ← await_get_files dirname;
  if bool_decide (archive_ext = Some ".zip") then
    await_create_zipfile output files dirname
  else if bool_decide (archive_ext ∈ [Some ".tar.bz2"; Some ".tar.gz"]) then
    let compression :=
      default "" (last (split_on "."%char (default "" archive_ext))) in
    await_create_tarfile output files compression dirname
  else
    Raise (ValueError (Format "Unsupported archive format {}"
                              [py_repr archive_ext])).

(** The set [archive_formats] of [sign]. *)
Definition archive_formats : list string :=
  ["autograph_widevine"; "autograph_omnija"; "autograph_authenticode"].

(** The extension [sign] reads off the input path. *)
Definition archive_ext_of (path : string) : option string :=
  if endswith path ".zip" then Some ".zip"
  else if endswith path ".tar.gz" then Some ".tar.gz"
  else if endswith path ".tar.bz2" then Some ".tar.bz2"
  else None.

(** Body of the loop of [sign]; the state is [(output, recreate_archive)]. *)
Definition sign_step (path : string) (archive_ext : option string)
    (st : pyval * bool) (fmt : string) : prog (pyval * bool) :=
  let '(output, recreate_archive) := st in
  signing_function ← lift (_get_signing_function_from_format fmt);
  '(output, recreate_archive) ←
    (if contains fmt archive_formats then
       is_dir ← isdir output;
       output ← (if negb is_dir
                 then PStr <$> await_extract_archive output
                 else Ret output);
       Ret (output, true)
     else
       is_dir ← isdir output;
       output ← (if is_dir : bool
                 then PStr <$> make_archive output archive_ext path
                 else Ret output);
       Ret (output, false));
  output ← await_signing_func signing_function output fmt;
  Ret (output, recreate_archive).

(** [for fmt in signing_formats]. *)
Fixpoint sign_loop (path : string) (archive_ext : option string)
    (signing_formats : list string) (st : pyval * bool)
    : prog (pyval * bool) :=
  match signing_formats with
  | [] => Ret st
  | fmt :: rest =>
      st ← sign_step path archive_ext st fmt;
      sign_loop path archive_ext rest st
  end.

(** [if not isinstance(output, (tuple, list)): output = [output]]. *)
Definition as_list (output : pyval) : pyval :=
  match output with
  | PStr s => PList [s]
  | _ => output
  end.

(** [sign(context, path, signing_formats)]. *)
Definition sign (path : string) (signing_formats : list string) : prog pyval :=
  let output := PStr path in
  let recreate_archive := false in
  let archive_ext := archive_ext_of path in
  '(output, recreate_archive) ←
    sign_loop path archive_ext signing_formats (output, recreate_archive);
  (* Re-create an archive if necessary *)
  output ← (if recreate_archive : bool
            then PStr <$> make_archive output archive_ext path
            else Ret output);
  (* We want to return a list *)
  Ret (as_list output).

(** *** Running a coroutine *)

(** The collaborators: each call is answered from a state of the world,
    which it may change. *)
Definition handler (W : Type) : Type := ∀ c : call, W → W * answer c.

(** A run: the final world, the calls made in order, and the outcome. *)
Fixpoint run {W A} (h : handler W) (p : prog A) (w : W)
    : W * list call * result A :=
  match p with
  | Ret a => (w, [], Ok a)
  | Raise e => (w, [], Err e)
  | Vis c k =>
      let '(w1, x) := h c w in
      let '(w2, calls, r) := run h (k x) w1 in
      (w2, c :: calls, r)
  end.

(** Every call the coroutine can make, whatever it is answered, satisfies
    [P]. *)
Fixpoint calls_satisfy {A} (P : call → Prop) (p : prog A) : Prop :=
  match p with
  | Vis c k => P c ∧ ∀ x, calls_satisfy P (k x)
  | _ => True
  end.

(** A call together with what it was answered. *)
Definition answered : Type := sigT answer.

(** A run with the answers written down: the calls made in order, each with
    its answer, and the outcome. *)
Fixpoint run_log {W A} (h : handler W) (p : prog A) (w : W)
    : list answered * result A :=
  match p with
  | Ret a => ([], Ok a)
  | Raise e => ([], Err e)
  | Vis c k =>
      let '(w1, x) := h c w in
      let '(log, r) := run_log h (k x) w1 in
      (existT c x :: log, r)
  end.

(** Whenever the coroutine returns, the last answered call before (or [l0]
    when it made none) and the value satisfy [Q]. *)
Fixpoint ends_after {A} (Q : option answered → A → Prop)
    (l0 : option answered) (p : prog A) : Prop :=
  match p with
  | Ret a => Q l0 a
  | Raise _ => True
  | Vis c k => ∀ x, ends_after Q (Some (existT c x)) (k x)
  end.

(** A packing call that was told to write to [path] and returned [s]. *)
Definition packed (path s : string) (ca : answered) : Prop :=
  match ca with
  | existT c x =>
      match c return answer c → Prop with
      | _create_zipfile to _ _ => λ x, to = path ∧ x = Ok s
      | _create_tarfile to _ _ _ => λ x, to = path ∧ x = Ok s
      | _ => λ _, False
      end x
  end.

(** A call of the signing function [f] for the format [fmt] that returned
    [r]. *)
Definition signed (f : signing_function) (fmt : string) (r : pyval)
    (ca : answered) : Prop :=
  match ca with
  | existT c x =>
      match c return answer c → Prop with
      | signing_func f' _ fmt' => λ x, f' = f ∧ fmt' = fmt ∧ x = Ok r
      | _ => λ _, False
      end x
  end.

(** The value [sign] returns is the singleton list of the path [output]
    held at the end: the input path when no call was made, else the path the
    last call (the final repack, or the last signing function) returned. *)
Definition wrapped (path : string) (log : list answered) (v : pyval) : Prop :=
  ∃ s, v = PList [s]
       ∧ ((log = [] ∧ s = path)
          ∨ ∃ ca, last log = Some ca
                  ∧ (packed path s ca ∨ ∃ f fmt, signed f fmt (PStr s) ca)).

(** The value [sign] returns is the list or the tuple the last call, a
    signing function, returned. *)
Definition passed_through (log : list answered) (v : pyval) : Prop :=
  ∃ ca f fmt,
    last log = Some ca
    ∧ signed f fmt v ca
    ∧ ((∃ l, v = PList l) ∨ ∃ l, v = PTuple l).

(** A call that packs a directory into the container format of [path], at
    [path]. *)
Definition repacks_as (path : string) (c : call) : Prop :=
  match c with
  | _create_zipfile to _ _ => to = path ∧ endswith path ".zip" = true
  | _create_tarfile to _ compression _ =>
      to = path
      ∧ ((compression = "gz" ∧ endswith path ".tar.gz" = true)
         ∨ (compression = "bz2" ∧ endswith path ".tar.bz2" = true))
  | _ => True
  end.

(** The packing call [make_archive] makes for a supported extension. *)
Definition packing_call (archive_ext to : string) (files : list string)
    (dirname : pyval) : call :=
  if bool_decide (archive_ext = ".zip")
  then _create_zipfile to files dirname
  else _create_tarfile to files
         (default "" (last (split_on "."%char archive_ext))) dirname.

(** *** A world to run [sign] in *)

(** Modelled from the spec: [signingscript.sign] is not among the sources.
    The world is the list of the paths that are directories.  Unpacking
    leaves the contents in a working directory; packing writes the container
    at the path it is told and returns that path; a signing function signs in
    place, and the two gpg functions add a detached signature. *)
Definition staging (c : call) (w : list string) : list string * answer c :=
  match c with
  | os_path_isdir p => (w, bool_decide (p ∈ w))
  | extract_archive (PStr p) =>
      let dir := p +:+ ".unpacked" in (dir :: w, Ok dir)
  | extract_archive _ => (w, Err (BackendError (Text "not a path")))
  | _get_files (PStr d) => (w, Ok [d +:+ "/content"])
  | _get_files _ => (w, Err (BackendError (Text "not a path")))
  | _create_zipfile to _ _ => (w, Ok to)
  | _create_tarfile to _ _ _ => (w, Ok to)
  | signing_func f (PStr p) _ =>
      (w, Ok (if bool_decide (f ∈ [sign_gpg; sign_gpg_with_autograph])
              then PList [p; p +:+ ".asc"]
              else PStr p))
  | signing_func _ _ _ => (w, Err (BackendError (Text "not a path")))
  end.

(** Modelled from the spec: [signingscript.sign] is not among the sources.
    The world of [staging] with signing operations that return their one or
    more output locations as a tuple when there is a detached signature,
    which the [isinstance(output, (tuple, list))] of [sign] provides for. *)
Definition staging_tuples (c : call) (w : list string)
    : list string * answer c :=
  match c with
  | signing_func f (PStr p) fmt =>
      (w, Ok (if bool_decide (f ∈ [sign_gpg; sign_gpg_with_autograph])
              then PTuple [p; p +:+ ".asc"]
              else PStr p))
  | signing_func f p fmt => staging (signing_func f p fmt) w
  | os_path_isdir p => staging (os_path_isdir p) w
  | extract_archive p => staging (extract_archive p) w
  | _get_files d => staging (_get_files d) w
  | _create_zipfile to files d => staging (_create_zipfile to files d) w
  | _create_tarfile to files z d => staging (_create_tarfile to files z d) w
  end.

End Lifecycle.

(** ** Reading a request prefix by prefix *)

Module Prefixes.
Import Py Resolver.

(** An expression that matches no string at all. *)
Fixpoint is_void (r : Re.regex) : bool :=
  match r with
  | Re.Void => true
  | Re.Seq r1 r2 => is_void r1 || is_void r2
  | Re.Alt r1 r2 => is_void r1 && is_void r2
  | _ => false
  end.

(** What is left to match once the characters of [s] have been read. *)
Fixpoint derivs (s : list ascii) (r : Re.regex) : Re.regex :=
  match s with
  | [] => r
  | c :: s' => derivs s' (Re.deriv c r)
  end.

(** The expression matches a beginning of [s] that stops short of its end. *)
Fixpoint matches_inside (r : Re.regex) (s : list ascii) : bool :=
  match s with
  | [] => false
  | c :: s' => Re.nullable r || matches_inside (Re.deriv c r) s'
  end.

(** What reading the beginning [P] of a request settles about a pattern:
    [Some true] when the pattern has matched by the end of [P], whatever
    follows; [Some false] when nothing that follows can make it match;
    [None] when it depends on what follows (or the pattern does not
    compile). *)
Definition verdict (pattern P : string) : option bool :=
  match Re.compile pattern with
  | None => None
  | Some r =>
      let s := list_ascii_of_string P in
      if matches_inside r s || Re.nullable (derivs s r) then Some true
      else if is_void (derivs s r) then Some false
      else None
  end.

(** After one more character, any but a newline, the expression can have
    matched. *)
Fixpoint matches_after_any_char (r : Re.regex) : bool :=
  match r with
  | Re.Dot => true
  | Re.Seq r1 r2 =>
      (matches_after_any_char r1 && Re.nullable r2)
      || (Re.nullable r1 && matches_after_any_char r2)
  | Re.Alt r1 r2 => matches_after_any_char r1 || matches_after_any_char r2
  | Re.Star r1 => matches_after_any_char r1
  | _ => false
  end.

(** The registry items settled as matching by the beginning [P]. *)
Definition settled_items (P : string) : list (string * signing_function) :=
  filter (λ item, verdict item.1 P = Some true) FORMAT_TO_SIGNING_FUNCTION.

End Prefixes.

(** ** The signing formats of a task *)

Module SigningFormats.
Import Py Data ArtifactResolver.

(** [formats.update(u["formats"])]. *)
Definition update_formats (h : heap) (formats : gset string)
    (u : artifact_dict) : gset string :=
  formats ∪ list_to_set (h !!! Data.formats u).

(** [task_signing_formats(context)], reading the formats lists in a heap.
    [None] stands for the [AttributeError] of [context.task.get] on a
    context without a task; the keys ["payload"] and ["upstreamArtifacts"],
    for which the code has defaults, are always there in [task_dict]. *)
Definition task_signing_formats (context : Context) (h : heap)
    : option (gset string) :=
  t ← task context;
  Some (foldl (update_formats h) ∅ (upstreamArtifacts (payload t))).

(** The dict [build_filelist_dict] returns for [three_paths] when every
    file is staged. *)
Definition three_paths_filelist : filelist :=
  <["c" := {| FileEntry.full_path := "/work/cot/upstream/c";
              FileEntry.formats := 0 |}]>
  (<["b" := {| FileEntry.full_path := "/work/cot/upstream/b";
               FileEntry.formats := 0 |}]>
   (<["a" := {| FileEntry.full_path := "/work/cot/upstream/a";
                FileEntry.formats := 0 |}]> ∅)).

(** A task that declares an absolute path next to a relative one. *)
Definition absolute_path_task : task_dict :=
  {| scopes := [];
     payload := {| upstreamArtifacts :=
       [ {| taskId := "upstream";
            paths := ["public/build/target.zip"; "/etc/hostname"];
            Data.formats := 0 |} ] |} |}.

Definition absolute_path : Context :=
  {| task := Some absolute_path_task;
     config := {| taskcluster_scope_prefixes := [];
                  work_dir := "/work" |} |}.

(** A disk on which only the files under the work directory are there. *)
Definition only_work_dir (p : string) : bool := startswith p "/work/".

End SigningFormats.

(** ** Reading the runs of [sign] *)

Module LifecycleViews.
Import Py Resolver Lifecycle.

(** A call to [extract_archive]. *)
Definition is_unpacking (c : call) : Prop :=
  match c with
  | extract_archive _ => True
  | _ => False
  end.

(** The exception a call was answered with, if it was. *)
Definition failed (c : call) : answer c → option exn :=
  match c with
  | os_path_isdir _ => λ _, None
  | extract_archive _ => λ r, match r with Err e => Some e | Ok _ => None end
  | _get_files _ => λ r, match r with Err e => Some e | Ok _ => None end
  | _create_zipfile _ _ _ => λ r,
      match r with Err e => Some e | Ok _ => None end
  | _create_tarfile _ _ _ _ => λ r,
      match r with Err e => Some e | Ok _ => None end
  | signing_func _ _ _ => λ r,
      match r with Err e => Some e | Ok _ => None end
  end.

(** A run with the failures of the collaborators written down next to the
    calls. *)
Fixpoint run_trace {W A} (h : handler W) (p : prog A) (w : W)
    : list (call * option exn) * result A :=
  match p with
  | Ret a => ([], Ok a)
  | Raise e => ([], Err e)
  | Vis c k =>
      let '(w1, x) := h c w in
      let '(trace, r) := run_trace h (k x) w1 in
      ((c, failed c x) :: trace, r)
  end.

(** A coroutine that stops with the exception of a collaborator as soon as
    one fails. *)
Fixpoint propagates {A} (p : prog A) : Prop :=
  match p with
  | Vis c k =>
      (∀ x e, failed c x = Some e → k x = Raise e) ∧ ∀ x, propagates (k x)
  | _ => True
  end.

(** The function and the format of a call to a signing function. *)
Definition signing_call (c : call) : option (signing_function * string) :=
  match c with
  | signing_func f _ fmt => Some (f, fmt)
  | _ => None
  end.

(** The signing functions called in a run, in order, each with the format
    it was called for. *)
Definition signing_calls (calls : list call)
    : list (result signing_function * string) :=
  (λ p, (Ok p.1, p.2)) <$> omap signing_call calls.

(** What the formats of a request resolve to. *)
Definition requested (signing_formats : list string)
    : list (result signing_function * string) :=
  (λ fmt, (_get_signing_function_from_format fmt, fmt)) <$> signing_formats.

(** The world of [staging] with archives that cannot be unpacked. *)
Definition unpack_fails (c : call) (w : list string)
    : list string * answer c :=
  match c with
  | extract_archive _ => (w, Err (BackendError (Text "corrupt archive")))
  | os_path_isdir p => staging (os_path_isdir p) w
  | _get_files d => staging (_get_files d) w
  | _create_zipfile to files d => staging (_create_zipfile to files d) w
  | _create_tarfile to files z d => staging (_create_tarfile to files z d) w
  | signing_func f p fmt => staging (signing_func f p fmt) w
  end.

End LifecycleViews.

(** * Properties *)

(** ** Format Orderer *)

Module OrdererFacts.
Import Orderer.

Lemma contains_true x l : Py.contains x l = true ↔ x ∈ l.
Proof. unfold Py.contains. apply bool_decide_eq_true. Qed.

Lemma contains_false x l : Py.contains x l = false ↔ x ∉ l.
Proof. unfold Py.contains. apply bool_decide_eq_false. Qed.

(** Removing the first occurrence of a member and putting it back in front
    gives a rearrangement of the list. *)
Lemma list_remove_perm x l : x ∈ l → l ≡ₚ x :: Py.list_remove x l.
Proof.
  induction l as [|y l IH]; intros Hin.
  - by apply not_elem_of_nil in Hin.
  - simpl. destruct (decide (x = y)) as [->|Hne]; [done|].
    apply elem_of_cons in Hin as [?|Hin]; [done|].
    rewrite (IH Hin) at 1. apply Permutation_swap.
Qed.

(** What [list.remove] drops does not satisfy [P]: the filter is blind to it. *)
Lemma filter_list_remove (P : string → Prop) `{!∀ x, Decision (P x)} x l :
  ¬ P x → filter P (Py.list_remove x l) = filter P l.
Proof.
  intros HP. induction l as [|y l IH]; [done|].
  simpl. destruct (decide (x = y)) as [->|Hne].
  - by rewrite filter_cons_False.
  - rewrite !filter_cons, IH. done.
Qed.

(** Two predicates that agree on the members of a list filter it alike. *)
Lemma filter_iff_on (P Q : string → Prop)
    `{!∀ x, Decision (P x)} `{!∀ x, Decision (Q x)} (l : list string) :
  (∀ x, x ∈ l → P x ↔ Q x) → filter P l = filter Q l.
Proof.
  induction l as [|y l IH]; intros Hagree; [done|].
  rewrite !filter_cons.
  rewrite IH by (intros; apply Hagree; by right).
  destruct (decide (P y)) as [HP|HP], (decide (Q y)) as [HQ|HQ]; try done.
  - apply (Hagree y) in HP; [done|by left].
  - apply (Hagree y) in HQ; [done|by left].
Qed.

Lemma sort_step_perm l p : sort_step l p ≡ₚ l.
Proof.
  unfold sort_step, Py.list_append.
  destruct (Py.contains p l) eqn:E; [|done].
  apply contains_true in E.
  rewrite (list_remove_perm p l E) at 2.
  by rewrite Permutation_app_comm.
Qed.

Lemma sort_with_perm ps l : sort_with ps l ≡ₚ l.
Proof.
  unfold sort_with. revert l.
  induction ps as [|p ps IH]; intros l; simpl; [done|].
  rewrite IH. apply sort_step_perm.
Qed.

(** A step on a format outside [P] leaves the [P]-part of the list alone. *)
Lemma filter_sort_step (P : string → Prop) `{!∀ x, Decision (P x)} l p :
  ¬ P p → filter P (sort_step l p) = filter P l.
Proof.
  intros HP. unfold sort_step, Py.list_append.
  destruct (Py.contains p l); [|done].
  rewrite filter_app, filter_list_remove by done.
  rewrite filter_cons_False by done. by rewrite app_nil_r.
Qed.

Lemma filter_sort_with (P : string → Prop) `{!∀ x, Decision (P x)} ps l :
  (∀ p, p ∈ ps → ¬ P p) → filter P (sort_with ps l) = filter P l.
Proof.
  unfold sort_with. revert l.
  induction ps as [|p ps IH]; intros l Hps; simpl; [done|].
  rewrite IH by (intros; apply Hps; by right).
  apply filter_sort_step, Hps. by left.
Qed.

(** The loop, in closed form, on a request that repeats none of the formats
    it walks through: the other formats in their order, then the formats of
    the tuple that are present, in the tuple's order. *)
Lemma sort_with_spec ps xs :
  NoDup ps →
  NoDup (filter (λ f, f ∈ ps) xs) →
  sort_with ps xs = filter (λ f, f ∉ ps) xs ++ filter (λ p, p ∈ xs) ps.
Proof.
  intros Hps. revert xs.
  induction Hps as [|p ps Hp Hps IH]; intros xs Hxs.
  - unfold sort_with. simpl. rewrite app_nil_r.
    symmetry. induction xs as [|x xs IHxs]; [done|].
    rewrite filter_cons_True by apply not_elem_of_nil.
    f_equal. apply IHxs. simpl in Hxs.
    by rewrite filter_cons_False in Hxs by apply not_elem_of_nil.
  - change (sort_with (p :: ps) xs) with (sort_with ps (sort_step xs p)).
    assert (Hperm : sort_step xs p ≡ₚ xs) by apply sort_step_perm.
    destruct (decide (p ∈ xs)) as [Hin|Hnin].
    + pose proof (list_remove_perm p xs Hin) as Hrm.
      assert (Hfp : filter (λ f, f ∈ p :: ps) xs
                    ≡ₚ p :: filter (λ f, f ∈ p :: ps) (Py.list_remove p xs)).
      { rewrite Hrm at 1. rewrite filter_cons_True by left. done. }
      rewrite Hfp in Hxs. apply NoDup_cons in Hxs as [Hpn Hnd].
      assert (Hprm : p ∉ Py.list_remove p xs).
      { intros Hc. apply Hpn. apply list_elem_of_filter. split; [left|done]. }
      assert (Hstep : sort_step xs p = Py.list_remove p xs ++ [p]).
      { unfold sort_step. apply contains_true in Hin. by rewrite Hin. }
      rewrite IH.
      * rewrite Hstep, filter_app, (filter_cons_True _ p) by done.
        rewrite filter_cons_True by done.
        rewrite <- app_assoc. simpl. f_equal.
        -- rewrite <- (filter_list_remove (λ f, f ∉ p :: ps) p xs)
             by (intros Hc; apply Hc; left).
           apply filter_iff_on. intros x Hx. rewrite not_elem_of_cons.
           split; [|tauto]. intros Hxps. split; [|done]. by intros ->.
        -- f_equal. apply list_filter_iff. intros x.
           by rewrite <- Hstep, Hperm.
      * rewrite Hstep, filter_app, (filter_cons_False _ p) by done.
        rewrite app_nil_r.
        erewrite filter_iff_on; [exact Hnd|].
        intros x Hx. rewrite elem_of_cons. split; [tauto|].
        intros [->|?]; [done|done].
    + assert (Hstep : sort_step xs p = xs).
      { unfold sort_step. apply contains_false in Hnin. by rewrite Hnin. }
      rewrite Hstep. rewrite IH.
      * rewrite (filter_cons_False _ p) by done. f_equal.
        apply filter_iff_on. intros x Hx. rewrite not_elem_of_cons.
        split; [|tauto]. intros Hxps. split; [|done]. by intros ->.
      * erewrite filter_iff_on; [exact Hxs|].
        intros x Hx. rewrite elem_of_cons. split; [tauto|].
        intros [->|?]; [done|done].
Qed.

Lemma priority_NoDup : NoDup priority.
Proof. apply (bool_decide_unpack _). vm_compute. exact I. Qed.

(** [_sort_formats] in closed form, for a request that repeats no priority
    format. *)
Lemma sort_formats_spec xs :
  NoDup (priority_part xs) →
  _sort_formats xs = unordered_part xs ++ filter (λ p, p ∈ xs) priority.
Proof. apply sort_with_spec, priority_NoDup. Qed.

Lemma unordered_part_sort xs : unordered_part (_sort_formats xs) = unordered_part xs.
Proof.
  unfold unordered_part, _sort_formats.
  apply filter_sort_with. intros p Hp Hc. by apply Hc.
Qed.

Lemma priority_part_perm xs ys :
  xs ≡ₚ ys → NoDup (priority_part xs) → NoDup (priority_part ys).
Proof. unfold priority_part. intros Hp. by rewrite Hp. Qed.

(** Ordering an ordered request that repeats no priority format changes
    nothing. *)
Lemma sort_formats_fixed xs :
  NoDup (priority_part xs) →
  _sort_formats (_sort_formats xs) = _sort_formats xs.
Proof.
  intros Hnd.
  assert (Hperm : _sort_formats xs ≡ₚ xs) by apply sort_with_perm.
  rewrite (sort_formats_spec (_sort_formats xs))
    by (eapply priority_part_perm; [symmetry; exact Hperm|done]).
  rewrite unordered_part_sort, (sort_formats_spec xs) by done.
  f_equal. apply list_filter_iff. intros p.
  by rewrite <- (sort_formats_spec xs), Hperm.
Qed.

(** However often it is ordered, at least once. *)
Lemma iter_sort_formats n xs :
  NoDup (priority_part xs) →
  Nat.iter (S n) _sort_formats xs = _sort_formats xs.
Proof.
  intros Hnd. induction n as [|n IH]; [done|].
  change (Nat.iter (S (S n)) _sort_formats xs)
    with (_sort_formats (Nat.iter (S n) _sort_formats xs)).
  rewrite IH. by apply sort_formats_fixed.
Qed.

(** C10: [_sort_formats] returns a rearrangement of its input: the same
    formats with the same multiplicities; nothing is dropped, duplicated or
    invented. *)
Theorem sort_formats_permutation (xs : list string) :
  Permutation xs (_sort_formats xs).
Proof. symmetry. apply sort_with_perm. Qed.

(** C3, as stated, fails: on a request that repeats a priority format the
    second pass moves the next copy, so ordering twice differs from ordering
    once. *)
Lemma sort_formats_twice_differs :
  _sort_formats ["gpg"; "gpg"; "jar"] = ["gpg"; "jar"; "gpg"] ∧
  _sort_formats (_sort_formats ["gpg"; "gpg"; "jar"]) = ["jar"; "gpg"; "gpg"] ∧
  _sort_formats (_sort_formats ["gpg"; "gpg"; "jar"])
    ≠ _sort_formats ["gpg"; "gpg"; "jar"].
Proof. vm_compute. repeat split; congruence. Qed.

(** C3 (amended): on every request in which no priority format occurs twice,
    [_sort_formats] is idempotent; and [["gpg"; "widevine"; "jar"]] is ordered
    as [["jar"; "widevine"; "gpg"]]. *)
Theorem sort_formats_idempotent (xs : list string) :
  NoDup (priority_part xs) →
  _sort_formats (_sort_formats xs) = _sort_formats xs
  ∧ _sort_formats ["gpg"; "widevine"; "jar"] = ["jar"; "widevine"; "gpg"].
Proof. intros Hnd. split; [by apply sort_formats_fixed|reflexivity]. Qed.

Lemma sort_formats_idempotent_witness :
  NoDup (priority_part ["gpg"; "focus-jar"; "widevine"; "jar"; "focus-jar"])
  ∧ _sort_formats (_sort_formats ["gpg"; "focus-jar"; "widevine"; "jar"; "focus-jar"])
    = _sort_formats ["gpg"; "focus-jar"; "widevine"; "jar"; "focus-jar"].
Proof.
  assert (H : NoDup (priority_part ["gpg"; "focus-jar"; "widevine"; "jar"; "focus-jar"])).
  { apply (bool_decide_unpack _). vm_compute. exact I. }
  split; [exact H|].
  exact (proj1 (sort_formats_idempotent _ H)).
Defined.

(** C6, as stated, fails: two requests with the same formats in another order
    are ordered differently when the formats are outside the priority list;
    and so are two requests that repeat a priority format at different
    places, even with the other formats in the same order. *)
Lemma sort_formats_keeps_input_order :
  (Permutation ["jar"; "focus-jar"] ["focus-jar"; "jar"]
   ∧ _sort_formats ["jar"; "focus-jar"] = ["jar"; "focus-jar"]
   ∧ _sort_formats ["focus-jar"; "jar"] = ["focus-jar"; "jar"]
   ∧ _sort_formats ["jar"; "focus-jar"] ≠ _sort_formats ["focus-jar"; "jar"])
  ∧ (Permutation ["gpg"; "jar"; "gpg"] ["gpg"; "gpg"; "jar"]
     ∧ unordered_part ["gpg"; "jar"; "gpg"] = unordered_part ["gpg"; "gpg"; "jar"]
     ∧ _sort_formats ["gpg"; "jar"; "gpg"] = ["jar"; "gpg"; "gpg"]
     ∧ _sort_formats ["gpg"; "gpg"; "jar"] = ["gpg"; "jar"; "gpg"]
     ∧ _sort_formats ["gpg"; "jar"; "gpg"] ≠ _sort_formats ["gpg"; "gpg"; "jar"]).
Proof.
  split.
  - split; [apply perm_swap|].
    vm_compute. repeat split; congruence.
  - split; [apply perm_skip, perm_swap|].
    vm_compute. repeat split; congruence.
Qed.

(** C6 (amended): two requests with the same formats, whose formats outside
    the priority list come in the same relative order and which repeat no
    priority format, are ordered alike: the position of the priority formats
    in the input does not matter. *)
Theorem sort_formats_same_request (xs ys : list string) :
  Permutation xs ys →
  unordered_part xs = unordered_part ys →
  NoDup (priority_part xs) →
  _sort_formats xs = _sort_formats ys.
Proof.
  intros Hperm Hun Hnd.
  rewrite (sort_formats_spec xs), (sort_formats_spec ys);
    [|by eapply priority_part_perm|done].
  rewrite Hun. f_equal. apply list_filter_iff. intros p. by rewrite Hperm.
Qed.

Lemma sort_formats_same_request_witness :
  _sort_formats ["gpg"; "jar"; "widevine"; "focus-jar"]
  = _sort_formats ["jar"; "widevine"; "focus-jar"; "gpg"].
Proof.
  apply sort_formats_same_request.
  - change (Permutation ("gpg" :: ["jar"; "widevine"; "focus-jar"])
                        (["jar"; "widevine"; "focus-jar"] ++ ["gpg"])).
    apply Permutation_cons_append.
  - reflexivity.
  - apply (bool_decide_unpack _). vm_compute. exact I.
Defined.

End OrdererFacts.

(** ** Format Resolver *)

Module ResolverFacts.
Import Py Resolver.

(** A comprehension whose condition never raises is a plain filter. *)
Lemma filterM_total {A} (cond : A → result bool) (l : list A) :
  (∀ x, x ∈ l → ∃ b, cond x = Ok b) →
  filterM cond l = Ok (filter (λ x, cond x = Ok true) l).
Proof.
  induction l as [|x l IH]; intros Htot; [done|].
  simpl. destruct (Htot x) as [b Hb]; [by left|].
  rewrite Hb. simpl. rewrite IH by (intros; apply Htot; by right). simpl.
  rewrite filter_cons. destruct b.
  - by rewrite decide_True.
  - rewrite decide_False; [done|]. rewrite Hb. congruence.
Qed.

(** Every key of the registry is a pattern Python compiles. *)
Lemma registry_compiles :
  Forall (λ item : string * signing_function, is_Some (Re.compile item.1))
         FORMAT_TO_SIGNING_FUNCTION.
Proof. apply (bool_decide_unpack _). vm_compute. exact I. Qed.

Lemma re_match_total (format : string) (item : string * signing_function) :
  item ∈ FORMAT_TO_SIGNING_FUNCTION → ∃ b, Re.re_match item.1 format = Ok b.
Proof.
  intros Hin.
  pose proof (proj1 (Forall_forall _ _) registry_compiles item Hin) as [r Hr].
  unfold Re.re_match. rewrite Hr. eauto.
Qed.

(** Every key of the registry, taken as a request, is matched by itself. *)
Lemma registry_keys_match_themselves :
  Forall (λ item : string * signing_function,
            Re.re_match item.1 item.1 = Ok true)
         FORMAT_TO_SIGNING_FUNCTION.
Proof. apply (bool_decide_unpack _). vm_compute. exact I. Qed.

(** No key is bound twice: [get] finds an item exactly when it is there. *)
Lemma registry_lookup (key : string) (f : signing_function) :
  dict_lookup FORMAT_TO_SIGNING_FUNCTION key = Some f
  ↔ (key, f) ∈ FORMAT_TO_SIGNING_FUNCTION.
Proof.
  split.
  - unfold FORMAT_TO_SIGNING_FUNCTION. simpl.
    repeat (destruct (decide (_ = key)) as [<-|?];
            [intros [= <-]; apply (bool_decide_unpack _); vm_compute; exact I|]).
    done.
  - unfold FORMAT_TO_SIGNING_FUNCTION. intros Hin.
    repeat (apply elem_of_cons in Hin as [[= -> ->]|Hin]; [reflexivity|]).
    by apply not_elem_of_nil in Hin.
Qed.

Lemma registry_default :
  dict_getitem FORMAT_TO_SIGNING_FUNCTION "default" = Ok sign_file.
Proof. reflexivity. Qed.

(** A requested format no pattern matches is not a key of the registry. *)
Lemma no_match_no_key (format : string) :
  matching_items format = [] →
  dict_lookup FORMAT_TO_SIGNING_FUNCTION format = None.
Proof.
  intros Hnone.
  destruct (dict_lookup FORMAT_TO_SIGNING_FUNCTION format) as [f|] eqn:E; [|done].
  apply registry_lookup in E.
  pose proof (proj1 (Forall_forall _ _) registry_keys_match_themselves _ E) as Hself.
  assert (Hin : (format, f) ∈ matching_items format).
  { unfold matching_items. apply list_elem_of_filter. by split. }
  rewrite Hnone in Hin. by apply not_elem_of_nil in Hin.
Qed.

(** The resolver never raises, and what it returns is read off the matching
    items. *)
Lemma resolver_by_cases (format : string) :
  _get_signing_function_from_format format =
  Ok match matching_items format with
     | [(_, f)] => f
     | _ => dict_get FORMAT_TO_SIGNING_FUNCTION format sign_file
     end.
Proof.
  unfold _get_signing_function_from_format, get_single_item_from_sequence.
  rewrite filterM_total by apply re_match_total.
  fold (matching_items format). simpl.
  destruct (matching_items format) as [|[k f] [|? ?]]; reflexivity.
Qed.

(** C1, as stated, fails: no registry key matches ["jarsigner"] in full and
    ["jarsigner"] is no key, so the claim promises the default operation
    [sign_file]; but [re.match] is content with the key ["jar"] matching the
    start of the request, and the resolver returns [sign_jar]. *)
Lemma resolver_full_match_fails :
  fully_matching_items "jarsigner" = []
  ∧ dict_lookup FORMAT_TO_SIGNING_FUNCTION "jarsigner" = None
  ∧ dict_getitem FORMAT_TO_SIGNING_FUNCTION "default" = Ok sign_file
  ∧ matching_items "jarsigner" = [("jar", sign_jar)]
  ∧ _get_signing_function_from_format "jarsigner" = Ok sign_jar
  ∧ _get_signing_function_from_format "jarsigner" ≠ Ok sign_file.
Proof. vm_compute. repeat split; congruence. Qed.

(** C1 (amended): a registry key matches a requested format when, as a
    pattern applied at the start of the request, it matches some prefix of it
    (the request may go on after the match).  If exactly one key matches, the
    resolver returns its operation; if several match, it returns the operation
    bound to the key equal to the request when there is one; with several
    matches and no such key, or with no match, it returns the operation of
    ["default"], which is [sign_file]. *)
Theorem resolver_precedence (format : string) :
  (∀ key f, matching_items format = [(key, f)] →
     _get_signing_function_from_format format = Ok f)
  ∧ ((2 ≤ length (matching_items format))%nat →
     ∀ f, (format, f) ∈ FORMAT_TO_SIGNING_FUNCTION →
     _get_signing_function_from_format format = Ok f)
  ∧ ((2 ≤ length (matching_items format))%nat →
     (∀ f, (format, f) ∉ FORMAT_TO_SIGNING_FUNCTION) →
     _get_signing_function_from_format format = Ok sign_file)
  ∧ (matching_items format = [] →
     _get_signing_function_from_format format = Ok sign_file)
  ∧ dict_getitem FORMAT_TO_SIGNING_FUNCTION "default" = Ok sign_file.
Proof.
  rewrite resolver_by_cases.
  split; [|split; [|split; [|split]]].
  - intros key f Hone. rewrite Hone. reflexivity.
  - intros Hlen f Hin. apply registry_lookup in Hin.
    destruct (matching_items format) as [|[? ?] [|? ?]]; simpl in Hlen; [lia|lia|].
    unfold dict_get. by rewrite Hin.
  - intros Hlen Hnokey.
    destruct (matching_items format) as [|[? ?] [|? ?]]; simpl in Hlen; [lia|lia|].
    unfold dict_get.
    destruct (dict_lookup FORMAT_TO_SIGNING_FUNCTION format) as [f|] eqn:E; [|done].
    apply registry_lookup in E. by apply Hnokey in E.
  - intros Hnone. rewrite Hnone.
    unfold dict_get. by rewrite (no_match_no_key format Hnone).
  - apply registry_default.
Qed.

Lemma resolver_precedence_witness :
  _get_signing_function_from_format "autograph_apk_fennec" = Ok sign_jar
  ∧ _get_signing_function_from_format "autograph_authenticode_stub"
    = Ok sign_authenticode_zip
  ∧ _get_signing_function_from_format "autograph_authenticode_stub_v2"
    = Ok sign_file
  ∧ _get_signing_function_from_format "sha2signcode" = Ok sign_file.
Proof.
  split; [|split; [|split]].
  - apply (proj1 (resolver_precedence "autograph_apk_fennec") "autograph_apk_.+").
    vm_compute. reflexivity.
  - apply (proj1 (proj2 (resolver_precedence "autograph_authenticode_stub"))).
    + vm_compute. lia.
    + apply (bool_decide_unpack _). vm_compute. exact I.
  - apply (proj1 (proj2 (proj2 (resolver_precedence "autograph_authenticode_stub_v2")))).
    + vm_compute. lia.
    + intros f. apply (bool_decide_unpack _). destruct f; vm_compute; exact I.
  - apply (proj1 (proj2 (proj2 (proj2 (resolver_precedence "sha2signcode"))))).
    vm_compute. reflexivity.
Defined.

End ResolverFacts.

(** ** Scope Authorizer *)

Module AuthorizerFacts.
Import Py Data Resolver Authorizer.

Lemma filterM_always {A} (l : list A) : filterM (λ _, Ok true) l = Ok l.
Proof. induction l as [|x l IH]; [done|]. simpl. by rewrite IH. Qed.

(** With a condition that always holds, the sequence must be a singleton. *)
Lemma get_single_item_always (l : list string) ErrorClass m0 m2 :
  (∃ item, l = [item]
     ∧ get_single_item_from_sequence l (λ _, Ok true) ErrorClass m0 m2 = Ok item)
  ∨ (length l ≠ 1
     ∧ ∃ m, get_single_item_from_sequence l (λ _, Ok true) ErrorClass m0 m2
            = Err (ErrorClass m)).
Proof.
  unfold get_single_item_from_sequence. rewrite filterM_always.
  destruct l as [|item [|item' l]].
  - right. split; [done|]. eexists. reflexivity.
  - left. exists item. done.
  - right. split; [done|]. eexists. reflexivity.
Qed.

(** The prefix check passes or raises a verification error. *)
Lemma check_prefixes_loop_cases scopes all_prefixes prefixes :
  check_prefixes_loop scopes all_prefixes prefixes = Ok ()
  ∨ ∃ m, check_prefixes_loop scopes all_prefixes prefixes
         = Err (TaskVerificationError m).
Proof.
  induction prefixes as [|p ps IH]; simpl.
  - right. eauto.
  - destruct (forallb _ scopes); [by left|exact IH].
Qed.

(** Every entry of the comprehension is a scope of the task that starts with
    one of the prefixes. *)
Lemma elem_of_scopes_with_prefix scope scopes prefixes :
  scope ∈ scopes_with_prefix scopes prefixes
  ↔ scope ∈ scopes ∧ ∃ prefix, prefix ∈ prefixes ∧ startswith scope prefix = true.
Proof.
  unfold scopes_with_prefix. rewrite list_elem_of_bind. split.
  - intros (s & Hin & Hs). apply list_elem_of_bind in Hin as (p & Hin & Hp).
    destruct (startswith s p) eqn:E; [|by apply not_elem_of_nil in Hin].
    apply list_elem_of_singleton in Hin as ->. eauto.
  - intros (Hs & p & Hp & Hstart). exists scope. split; [|done].
    apply list_elem_of_bind. exists p. split; [|done].
    rewrite Hstart. by left.
Qed.

(** With a single entry the prefix check passes. *)
Lemma check_prefixes_loop_single scope all_prefixes prefixes :
  (∃ prefix, prefix ∈ prefixes ∧ startswith scope prefix = true) →
  check_prefixes_loop [scope] all_prefixes prefixes = Ok ().
Proof.
  induction prefixes as [|p ps IH]; intros (q & Hq & Hstart).
  - by apply not_elem_of_nil in Hq.
  - simpl. destruct (startswith scope p) eqn:E; [done|]. simpl.
    apply IH. exists q. split; [|done].
    apply elem_of_cons in Hq as [->|?]; [congruence|done].
Qed.

(** [task_cert_type] returns the only entry of the comprehension, or raises
    a verification error. *)
Lemma task_cert_type_cases (context : Context) :
  (∃ t scope,
      task context = Some t
      ∧ scopes_with_prefix (scopes t) (_get_cert_prefixes context) = [scope]
      ∧ task_cert_type context = Ok scope)
  ∨ ∃ m, task_cert_type context = Err (TaskVerificationError m).
Proof.
  unfold task_cert_type.
  destruct (task context) as [t|] eqn:Et; [|right; eauto].
  destruct (scopes t) as [|s0 ss] eqn:Es; [right; eauto|].
  unfold _extract_scopes_from_unique_prefix,
    _check_scopes_exist_and_all_have_the_same_prefix.
  destruct (check_prefixes_loop_cases
              (scopes_with_prefix (s0 :: ss) (_get_cert_prefixes context))
              (_get_cert_prefixes context) (_get_cert_prefixes context))
    as [Hok|[m Hm]].
  - rewrite Hok.
    change (Ok () ≫= ?k) with (k ()). cbv beta.
    change (Ok ?x ≫= ?k) with (k x). cbv beta.
    match goal with
    | |- context [get_single_item_from_sequence ?l ?c ?E ?m0 ?m2] =>
        destruct (get_single_item_always l E m0 m2)
          as [(item & Hl & Hitem)|(_ & m & Hm)]
    end.
    + left. exists t, item. rewrite Es. done.
    + right. eauto.
  - rewrite Hm. right. eexists. reflexivity.
Qed.

(** C2: a task with exactly one scope that starts with a constructed prefix
    [{base-prefix}:cert:] is to get that scope from [task_cert_type], as the
    docstring of the function says too ("Raises: TaskVerificationError: if
    the number of cert scopes is not 1").  The code does not: with a
    configuration that names one prefix with and without its final colon, the
    comprehension of [_extract_scopes_from_unique_prefix] lists the one
    certificate scope of the task once for each of the two configured
    prefixes, and [task_cert_type] raises "More than one scope found". *)
Lemma task_cert_type_counts_prefixes :
  _get_cert_prefixes twice_configured
    = ["project:releng:signing:cert:"; "project:releng:signing:cert:"]
  ∧ matching_scopes
      ["project:releng:signing:cert:dep-signing";
       "queue:route:index.project.releng"]
      (_get_cert_prefixes twice_configured)
    = ["project:releng:signing:cert:dep-signing"]
  ∧ task_cert_type twice_configured
    = Err (TaskVerificationError
             (Format "{}. Given: {}"
                [Text "More than one scope found";
                 Repr [Text "project:releng:signing:cert:dep-signing";
                       Text "project:releng:signing:cert:dep-signing"]]))
  ∧ task_cert_type twice_configured
    ≠ Ok "project:releng:signing:cert:dep-signing".
Proof. vm_compute. repeat split; congruence. Qed.

(** [task_cert_type], read off the sequence that
    [_extract_scopes_from_unique_prefix] builds, which has one entry for each
    scope of the task and each constructed prefix the scope starts with.  If
    it has exactly one entry, that scope is returned.  If there is no task or
    the task has no scopes, or the sequence has no entry or more than one, or
    its entries do not all start with one common constructed prefix,
    [TaskVerificationError] is raised. *)
Theorem task_cert_type_single_entry (context : Context) :
  (∀ t scope,
     task context = Some t →
     scopes_with_prefix (scopes t) (_get_cert_prefixes context) = [scope] →
     task_cert_type context = Ok scope)
  ∧ (task context = None →
     ∃ m, task_cert_type context = Err (TaskVerificationError m))
  ∧ (∀ t,
     task context = Some t →
     scopes t = []
     ∨ length (scopes_with_prefix (scopes t) (_get_cert_prefixes context)) ≠ 1
     ∨ ¬ (∃ prefix,
            prefix ∈ _get_cert_prefixes context
            ∧ ∀ scope,
                scope ∈ scopes_with_prefix (scopes t) (_get_cert_prefixes context) →
                startswith scope prefix = true) →
     ∃ m, task_cert_type context = Err (TaskVerificationError m)).
Proof.
  split; [|split].
  - intros t scope Ht Hone.
    unfold task_cert_type. rewrite Ht.
    destruct (scopes t) as [|s0 ss] eqn:Es; [done|].
    unfold _extract_scopes_from_unique_prefix,
      _check_scopes_exist_and_all_have_the_same_prefix.
    rewrite Hone.
    rewrite check_prefixes_loop_single; [reflexivity|].
    assert (Hin : scope ∈ scopes_with_prefix (s0 :: ss) (_get_cert_prefixes context))
      by (rewrite Hone; by left).
    by apply elem_of_scopes_with_prefix in Hin as [_ ?].
  - intros Hnone. unfold task_cert_type. rewrite Hnone. eauto.
  - intros t Ht Hbad.
    destruct (task_cert_type_cases context)
      as [(t' & scope & Ht' & Hone & _)|Herr]; [|exact Herr].
    exfalso. rewrite Ht in Ht'. injection Ht' as <-.
    destruct Hbad as [Hempty|[Hlen|Hprefix]].
    + by rewrite Hempty in Hone.
    + by rewrite Hone in Hlen.
    + apply Hprefix.
      assert (Hin : scope ∈ scopes_with_prefix (scopes t) (_get_cert_prefixes context))
        by (rewrite Hone; by left).
      apply elem_of_scopes_with_prefix in Hin as [_ (prefix & Hp & Hstart)].
      exists prefix. split; [done|].
      intros s. rewrite Hone. intros Hs.
      by apply list_elem_of_singleton in Hs as ->.
Qed.

Lemma task_cert_type_single_entry_witness :
  task_cert_type
    (two_prefixes ["queue:route:index.project.releng";
                   "project:releng:signing:cert:release-signing";
                   "project:releng:signing:format:gpg"])
  = Ok "project:releng:signing:cert:release-signing"
  ∧ (∃ m, task_cert_type (two_prefixes []) = Err (TaskVerificationError m))
  ∧ (∃ m, task_cert_type
            (two_prefixes ["project:releng:signing:cert:release-signing";
                           "project:releng:signing:cert:dep-signing"])
          = Err (TaskVerificationError m)).
Proof.
  split; [|split].
  - eapply (proj1 (task_cert_type_single_entry _)); reflexivity.
  - eapply (proj2 (proj2 (task_cert_type_single_entry _))); [reflexivity|].
    left. reflexivity.
  - eapply (proj2 (proj2 (task_cert_type_single_entry _))); [reflexivity|].
    right. left. vm_compute. lia.
Defined.

End AuthorizerFacts.

(** ** Upstream Artifact Resolver *)

Module ArtifactResolverFacts.
Import Py Data Orderer ArtifactResolver.

(** *** Locations *)

Lemma append_assoc (a b c : string) : (a +:+ b) +:+ c = a +:+ b +:+ c.
Proof.
  induction a as [|x a IH]; [done|].
  change (String x ((a +:+ b) +:+ c) = String x (a +:+ b +:+ c)).
  by rewrite IH.
Qed.

Lemma append_empty (a b : string) : a +:+ b = "" → b = "".
Proof. by destruct a. Qed.

(** Whether a path ends with a separator is decided by its last component. *)
Lemma endswith_append (a b : string) :
  b ≠ "" → endswith (a +:+ b) "/" = endswith b "/".
Proof.
  intros Hb. induction a as [|x a IH]; [done|].
  change (String x a +:+ b) with (String x (a +:+ b)).
  simpl. rewrite IH.
  rewrite bool_decide_eq_false_2; [done|].
  intros [= _ Hab]. by apply append_empty in Hab.
Qed.

(** Joining a relative component to a path that does not end with a
    separator. *)
Lemma join_step_relative (path b : string) :
  path ≠ "" → endswith path "/" = false → startswith b "/" = false →
  join_step path b = path +:+ "/" +:+ b.
Proof.
  intros Hne Hend Hrel. unfold join_step.
  rewrite Hrel, Hend. by rewrite bool_decide_eq_false_2.
Qed.

(** For a work directory and a task identifier that are not empty and do not
    end with a separator, and a task identifier and a path that are
    relative, the location is [{work_dir}/cot/{taskId}/{path}]. *)
Lemma location_template (context : Context) (a : artifact_dict) (path : string) :
  work_dir (config context) ≠ "" →
  endswith (work_dir (config context)) "/" = false →
  taskId a ≠ "" →
  startswith (taskId a) "/" = false →
  endswith (taskId a) "/" = false →
  startswith path "/" = false →
  location context (a, path)
  = work_dir (config context) +:+ "/cot/" +:+ taskId a +:+ "/" +:+ path.
Proof.
  intros Hw Hwend Ht Htrel Htend Hprel.
  unfold location, os_path_join. simpl.
  rewrite (join_step_relative (work_dir (config context)) "cot") by done.
  rewrite (join_step_relative _ (taskId a)); [| |by rewrite endswith_append|done].
  - rewrite (join_step_relative _ path); [| | |done].
    + by rewrite !append_assoc.
    + intros Hc. by apply append_empty, append_empty in Hc.
    + rewrite <- (append_assoc _ "/" (taskId a)). by rewrite endswith_append.
  - intros Hc. by apply append_empty in Hc.
Qed.

(** An absolute path component restarts the location. *)
Example location_absolute_component :
  location three_paths
           ({| taskId := "upstream"; paths := ["/etc/passwd"];
               Data.formats := 0 |}, "/etc/passwd")
  = "/etc/passwd".
Proof. reflexivity. Qed.

(** *** The loops *)

Section Disk.

Variable os_path_exists : string → bool.
Variable context : Context.

Lemma artifact_step_files st a :
  artifact_step os_path_exists context st a
  = foldl (file_step os_path_exists context) st (map (λ p, (a, p)) (paths a)).
Proof.
  unfold artifact_step. generalize (paths a) as ps. intros ps. revert st.
  induction ps as [|p ps IH]; intros st; [done|]. simpl. apply IH.
Qed.

(** The nested loops walk through the declared files. *)
Lemma loops_flatten st arts :
  foldl (artifact_step os_path_exists context) st arts
  = foldl (file_step os_path_exists context) st (a ← arts; p ← paths a; [(a, p)]).
Proof.
  revert st. induction arts as [|a arts IH]; intros st; [done|].
  simpl. rewrite foldl_app, IH. f_equal.
  rewrite artifact_step_files. f_equal.
Qed.

(** What the loops have done after a list of files, starting from a heap and
    nothing else. *)
Lemma loops_spec (h0 : heap) (files : list (artifact_dict * string)) :
  ∃ h d,
    foldl (file_step os_path_exists context) (h0, ∅, []) files
    = (h, d,
       map (missing_message context)
           (filter (λ file, os_path_exists (location context file) = false)
                   files))
    ∧ (∀ path : string,
         d !! path
         = declared_entry context
             <$> last (filter (λ file, file.2 = path) files))
    ∧ (∀ l : loc,
         h !!! l
         = Nat.iter (length (filter (λ file, Data.formats file.1 = l) files))
                    _sort_formats (h0 !!! l)).
Proof.
  induction files as [|file files IH] using rev_ind.
  - exists h0, ∅. split; [done|]. split; [|done].
    intros path. by rewrite lookup_empty.
  - destruct IH as (h & d & Hfold & Hd & Hh).
    rewrite foldl_snoc, Hfold.
    unfold file_step at 1, path_step, sort_formats_at.
    fold (location context file).
    eexists _, _. split; [|split].
    + f_equal. rewrite filter_app, map_app. unfold list_append. f_equal.
      rewrite filter_cons, filter_nil.
      destruct (os_path_exists (location context file)) eqn:E.
      * rewrite decide_False by done. simpl. by rewrite app_nil_r.
      * by rewrite decide_True.
    + intros path. rewrite filter_app, filter_cons, filter_nil.
      destruct (decide (file.2 = path)) as [<-|Hne].
      * rewrite lookup_insert_eq, last_snoc. done.
      * rewrite lookup_insert_ne, app_nil_r by done. apply Hd.
    + intros l. rewrite filter_app, filter_cons, filter_nil.
      destruct (decide (Data.formats file.1 = l)) as [<-|Hne].
      * rewrite lookup_total_insert_eq, length_app. simpl.
        rewrite Nat.add_1_r. simpl. by rewrite Hh.
      * rewrite lookup_total_insert_ne, app_nil_r by done. apply Hh.
Qed.

(** The function, read off the declared files. *)
Lemma build_filelist_dict_spec (t : task_dict) (h0 : heap) :
  task context = Some t →
  ∃ h d,
    build_filelist_dict os_path_exists context h0
    = (h, match missing_files os_path_exists context t with
          | [] => Ok d
          | missing =>
              Err (TaskVerificationError
                     (py_repr (map (missing_message context) missing)))
          end)
    ∧ (∀ path : string,
         d !! path
         = declared_entry context
             <$> last (filter (λ file, file.2 = path) (declared_files t)))
    ∧ (∀ l : loc,
         h !!! l
         = Nat.iter
             (length (filter (λ file, Data.formats file.1 = l)
                             (declared_files t)))
             _sort_formats (h0 !!! l)).
Proof.
  intros Ht. unfold build_filelist_dict. rewrite Ht.
  rewrite loops_flatten. fold (declared_files t).
  destruct (loops_spec h0 (declared_files t)) as (h & d & Hfold & Hd & Hh).
  rewrite Hfold. fold (missing_files os_path_exists context t).
  exists h, d. split; [|done].
  by destruct (missing_files os_path_exists context t).
Qed.

End Disk.

(** C4: when some of the computed locations are not on disk,
    [build_filelist_dict] raises one [TaskVerificationError] whose report has
    a line for every missing location, in the order of the declarations (it
    does not stop at the first); when all are on disk it returns the dict
    that maps each declared relative path to its location (of the last
    declaration of that path) and to the formats list of its group, which
    [_sort_formats] has reordered in place once per declared path: that is
    [_sort_formats] of the request when it repeats no priority format. *)
Theorem build_filelist_dict_reports_all
    (os_path_exists : string → bool) (context : Context) (t : task_dict)
    (h0 : heap) :
  task context = Some t →
  let out := build_filelist_dict os_path_exists context h0 in
  let missing := missing_files os_path_exists context t in
  (missing ≠ [] →
     out.2 = Err (TaskVerificationError
                    (py_repr (map (missing_message context) missing)))
     ∧ ∀ file,
         file ∈ declared_files t →
         os_path_exists (location context file) = false →
         missing_message context file ∈ map (missing_message context) missing)
  ∧ (missing = [] →
     ∃ d,
       out.2 = Ok d
       ∧ ∀ file,
           file ∈ declared_files t →
           ∃ file',
             last (filter (λ f, f.2 = file.2) (declared_files t)) = Some file'
             ∧ read_entry out.1 d file.2
               = Some (location context file',
                       Nat.iter
                         (length (filter
                                    (λ f, Data.formats f.1 = Data.formats file'.1)
                                    (declared_files t)))
                         _sort_formats (h0 !!! Data.formats file'.1))
             ∧ (NoDup (priority_part (h0 !!! Data.formats file'.1)) →
                read_entry out.1 d file.2
                = Some (location context file',
                        _sort_formats (h0 !!! Data.formats file'.1)))).
Proof.
  intros Ht out missing.
  destruct (build_filelist_dict_spec os_path_exists context t h0 Ht)
    as (h & d & Hout & Hd & Hh).
  subst out. rewrite Hout. fold missing. simpl. split.
  - intros Hmiss. split.
    + by destruct missing.
    + intros file Hin Hnot. apply list_elem_of_fmap. exists file.
      split; [done|]. unfold missing, missing_files.
      apply list_elem_of_filter. done.
  - intros Hnone. rewrite Hnone. exists d. split; [done|].
    intros file Hin.
    assert (Hlast : is_Some (last (filter (λ f, f.2 = file.2) (declared_files t)))).
    { destruct (filter (λ f, f.2 = file.2) (declared_files t)) as [|x l] eqn:E.
      - assert (Hf : file ∈ filter (λ f, f.2 = file.2) (declared_files t))
          by (by apply list_elem_of_filter).
        rewrite E in Hf. by apply not_elem_of_nil in Hf.
      - rewrite last_is_Some. done. }
    destruct Hlast as [file' Hlast]. exists file'. split; [done|].
    assert (Hread :
      read_entry h d file.2
      = Some (location context file', h !!! Data.formats file'.1)).
    { unfold read_entry. rewrite Hd, Hlast. done. }
    assert (Hin' : file' ∈ filter (λ f, Data.formats f.1 = Data.formats file'.1)
                                (declared_files t)).
    { apply list_elem_of_filter. split; [done|].
      apply last_Some_elem_of in Hlast.
      by apply list_elem_of_filter in Hlast as [_ ?]. }
    split.
    + rewrite Hread, Hh. done.
    + intros Hnd. rewrite Hread, Hh.
      destruct (filter (λ f, Data.formats f.1 = Data.formats file'.1)
                       (declared_files t)) as [|x l].
      * by apply not_elem_of_nil in Hin'.
      * simpl length. by rewrite OrdererFacts.iter_sort_formats.
Qed.

Lemma build_filelist_dict_reports_all_witness :
  (build_filelist_dict only_b_staged three_paths three_paths_heap).2
  = Err (TaskVerificationError
           (Repr [Text "/work/cot/upstream/a doesn't exist!";
                  Text "/work/cot/upstream/c doesn't exist!"])).
Proof.
  refine (proj1 (proj1 (build_filelist_dict_reports_all
                          only_b_staged three_paths three_paths_task
                          three_paths_heap _) _)).
  - reflexivity.
  - vm_compute. discriminate.
Defined.

End ArtifactResolverFacts.

(** ** Archive Lifecycle Manager *)

Module LifecycleFacts.
Import Py Resolver Lifecycle.
Import ResolverFacts.

(** *** Coroutines *)

Lemma calls_satisfy_bind {A B} (P : call → Prop) (p : prog A) (k : A → prog B) :
  calls_satisfy P p →
  (∀ a, calls_satisfy P (k a)) →
  calls_satisfy P (p ≫= k).
Proof.
  intros Hp Hk. induction p as [a|e|c k' IH]; simpl in *; [apply Hk|done|].
  destruct Hp as [Hc Hk']. split; [done|]. intros x. by apply IH.
Qed.

Lemma calls_satisfy_fmap {A B} (P : call → Prop) (f : A → B) (p : prog A) :
  calls_satisfy P p → calls_satisfy P (f <$> p).
Proof. intros Hp. by apply (calls_satisfy_bind P p (λ a, Ret (f a))). Qed.

Lemma calls_satisfy_lift {A} (P : call → Prop) (r : result A) :
  calls_satisfy P (lift r).
Proof. by destruct r. Qed.

(** The calls of a run are calls of the coroutine. *)
Lemma run_calls {W A} (P : call → Prop) (h : handler W) (p : prog A) (w : W) :
  calls_satisfy P p → Forall P (run h p w).1.2.
Proof.
  revert w. induction p as [a|e|c k IH]; intros w Hp; simpl; [done|done|].
  destruct Hp as [Hc Hk].
  destruct (h c w) as [w1 x] eqn:Eh.
  specialize (IH x w1 (Hk x)).
  destruct (run h (k x) w1) as [[w2 calls] r]. simpl in *.
  by constructor.
Qed.

(** [run_log] is [run] with the answers written down. *)
Lemma run_log_run {W A} (h : handler W) (p : prog A) (w : W) :
  projT1 <$> (run_log h p w).1 = (run h p w).1.2
  ∧ (run_log h p w).2 = (run h p w).2.
Proof.
  revert w. induction p as [a|e|c k IH]; intros w; simpl; [done|done|].
  destruct (h c w) as [w1 x].
  specialize (IH x w1).
  destruct (run_log h (k x) w1) as [log r].
  destruct (run h (k x) w1) as [[w2 calls] r'].
  cbn [fst snd] in *. rewrite fmap_cons. destruct IH as [<- <-]. done.
Qed.

Lemma ends_after_bind {A B} (Q' : option answered → A → Prop)
    (Q : option answered → B → Prop) (l0 : option answered)
    (p : prog A) (k : A → prog B) :
  ends_after Q' l0 p →
  (∀ l a, Q' l a → ends_after Q l (k a)) →
  ends_after Q l0 (p ≫= k).
Proof.
  intros Hp Hk. revert l0 Hp.
  induction p as [a|e|c k' IH]; intros l0 Hp; simpl in *;
    [by apply Hk|done|].
  intros x. apply IH, Hp.
Qed.

Lemma ends_after_weaken {A} (Q Q' : option answered → A → Prop)
    (l0 : option answered) (p : prog A) :
  (∀ l a, Q l a → Q' l a) → ends_after Q l0 p → ends_after Q' l0 p.
Proof.
  intros HQ. revert l0.
  induction p as [a|e|c k IH]; intros l0 Hp; simpl in *;
    [by apply HQ|done|].
  intros x. apply IH, Hp.
Qed.

Lemma ends_after_anything {A} (l0 : option answered) (p : prog A) :
  ends_after (λ _ _, True) l0 p.
Proof.
  revert l0. induction p as [a|e|c k IH]; intros l0; simpl; [done|done|].
  intros x. apply IH.
Qed.

(** The last answered call of a run that returns. *)
Lemma run_log_ends_after {W A} (Q : option answered → A → Prop)
    (l0 : option answered) (h : handler W) (p : prog A) (w : W) (a : A) :
  ends_after Q l0 p →
  (run_log h p w).2 = Ok a →
  Q (match last (run_log h p w).1 with Some ca => Some ca | None => l0 end) a.
Proof.
  revert l0 w. induction p as [a'|e|c k IH]; intros l0 w Hp; simpl.
  - by intros [= <-].
  - done.
  - destruct (h c w) as [w1 x] eqn:Eh.
    specialize (IH x (Some (existT c x)) w1 (Hp x)).
    destruct (run_log h (k x) w1) as [log r]. cbn [fst snd] in *.
    intros Hr. specialize (IH Hr).
    destruct log as [|ca log]; [exact IH|].
    change (last (existT c x :: ca :: log)) with (last (ca :: log)).
    destruct (last (ca :: log)) eqn:E; [exact IH|].
    by apply last_None in E.
Qed.

(** A run of [p ≫= k] is a run of [p] and then, if it returned, of [k]. *)
Lemma run_bind {W A B} (h : handler W) (p : prog A) (k : A → prog B) (w : W) :
  run h (p ≫= k) w
  = match (run h p w).2 with
    | Ok a =>
        let out := run h (k a) (run h p w).1.1 in
        (out.1.1, (run h p w).1.2 ++ out.1.2, out.2)
    | Err e => ((run h p w).1.1, (run h p w).1.2, Err e)
    end.
Proof.
  revert w. induction p as [a|e|c k' IH]; intros w; simpl.
  - by destruct (run h (k a) w) as [[? ?] ?].
  - done.
  - destruct (h c w) as [w1 x].
    change (prog_bind_fix k (k' x)) with (k' x ≫= k). rewrite IH.
    destruct (run h (k' x) w1) as [[w2 calls] [a|e]]; simpl; [|done].
    by destruct (run h (k a) w2) as [[? ?] ?].
Qed.

(** *** Repacking *)

(** The extension [sign] works with is one the path ends with. *)
Lemma archive_ext_of_cases (path : string) :
  (archive_ext_of path = Some ".zip" ∧ endswith path ".zip" = true)
  ∨ (archive_ext_of path = Some ".tar.gz" ∧ endswith path ".tar.gz" = true)
  ∨ (archive_ext_of path = Some ".tar.bz2" ∧ endswith path ".tar.bz2" = true)
  ∨ archive_ext_of path = None.
Proof.
  unfold archive_ext_of.
  destruct (endswith path ".zip"); [by left|].
  destruct (endswith path ".tar.gz"); [by right; left|].
  destruct (endswith path ".tar.bz2"); [by right; right; left|].
  by right; right; right.
Qed.

(** Whatever [make_archive] packs for [sign], it packs at the input path and
    in the format of its extension. *)
Lemma make_archive_calls (path : string) (dirname : pyval) :
  calls_satisfy (repacks_as path)
                (make_archive dirname (archive_ext_of path) path).
Proof.
  unfold make_archive, await_get_files. simpl. split; [done|].
  intros [files|e]; simpl; [|done].
  destruct (archive_ext_of_cases path)
    as [[Hext Hend]|[[Hext Hend]|[[Hext Hend]|Hext]]]; rewrite Hext.
  - rewrite bool_decide_eq_true_2 by done. simpl.
    split; [done|]. intros x. by destruct x.
  - rewrite bool_decide_eq_false_2 by done.
    rewrite bool_decide_eq_true_2 by set_solver. simpl.
    split; [|intros x; by destruct x]. split; [done|]. left. done.
  - rewrite bool_decide_eq_false_2 by done.
    rewrite bool_decide_eq_true_2 by set_solver. simpl.
    split; [|intros x; by destruct x]. split; [done|]. right. done.
  - rewrite bool_decide_eq_false_2 by done.
    rewrite bool_decide_eq_false_2
      by (apply (bool_decide_unpack _); vm_compute; exact I).
    done.
Qed.

Lemma isdir_calls (path : string) (output : pyval) :
  calls_satisfy (repacks_as path) (isdir output).
Proof. destruct output; simpl; [|done|done]. split; done. Qed.

Lemma sign_step_calls (path : string) (st : pyval * bool) (fmt : string) :
  calls_satisfy (repacks_as path) (sign_step path (archive_ext_of path) st fmt).
Proof.
  destruct st as [output recreate]. unfold sign_step.
  apply calls_satisfy_bind; [apply calls_satisfy_lift|]. intros f.
  apply calls_satisfy_bind.
  - destruct (contains fmt archive_formats).
    + apply calls_satisfy_bind; [apply isdir_calls|]. intros is_dir.
      apply calls_satisfy_bind; [|done].
      destruct is_dir; simpl; [done|]. split; [done|]. intros x. by destruct x.
    + apply calls_satisfy_bind; [apply isdir_calls|]. intros is_dir.
      apply calls_satisfy_bind; [|done].
      destruct is_dir; [|done].
      apply calls_satisfy_fmap, make_archive_calls.
  - intros [output' recreate'].
    apply calls_satisfy_bind; [|done].
    simpl. split; [done|]. intros x. by destruct x.
Qed.

Lemma sign_loop_calls (path : string) (signing_formats : list string)
    (st : pyval * bool) :
  calls_satisfy (repacks_as path)
                (sign_loop path (archive_ext_of path) signing_formats st).
Proof.
  revert st. induction signing_formats as [|fmt rest IH]; intros st; [done|].
  simpl. apply calls_satisfy_bind; [apply sign_step_calls|]. apply IH.
Qed.

(** C7: every packing call [sign] makes, in the loop or after it, is for the
    container format the input path ends with ([.zip], or a tar file
    compressed as the [.tar.gz] or [.tar.bz2] of the path says) and writes to
    the input path; so are the packing calls of every run. *)
Theorem sign_repacks_as_input (path : string) (signing_formats : list string) :
  calls_satisfy (repacks_as path) (sign path signing_formats)
  ∧ ∀ W (h : handler W) (w : W),
      Forall (repacks_as path) (run h (sign path signing_formats) w).1.2.
Proof.
  assert (Hcalls : calls_satisfy (repacks_as path) (sign path signing_formats)).
  { unfold sign.
    apply calls_satisfy_bind; [apply sign_loop_calls|].
    intros [output recreate].
    apply calls_satisfy_bind; [|done].
    destruct recreate; [|done].
    apply calls_satisfy_fmap, make_archive_calls. }
  split; [done|]. intros W h w. by apply run_calls.
Qed.

(** *** How a run ends *)

(** [make_archive] returns what the packing call returned, and that call was
    told to write to [output]. *)
Lemma make_archive_ends_after (dirname : pyval) (archive_ext : option string)
    (output : string) (l0 : option answered) :
  ends_after (λ l s, ∃ ca, l = Some ca ∧ packed output s ca) l0
             (make_archive dirname archive_ext output).
Proof.
  unfold make_archive, await_get_files. simpl.
  intros [files|e]; simpl; [|done].
  repeat case_bool_decide; simpl; [| |done];
    intros [s|e]; simpl; try done; by eexists.
Qed.

(** A step that returns ends with the call of the function the resolver
    gives for its format; [output] is what that call returned, and the flag
    says whether the format is archive-aware. *)
Lemma sign_step_ends_after (path : string) (archive_ext : option string)
    (st : pyval * bool) (fmt : string) (l0 : option answered) :
  ends_after
    (λ l st', st'.2 = contains fmt archive_formats
              ∧ ∃ ca f, l = Some ca
                        ∧ _get_signing_function_from_format fmt = Ok f
                        ∧ signed f fmt st'.1 ca)
    l0 (sign_step path archive_ext st fmt).
Proof.
  destruct st as [output recreate]. unfold sign_step.
  rewrite resolver_by_cases.
  set (f := match matching_items fmt with
            | [(_, f)] => f
            | _ => dict_get FORMAT_TO_SIGNING_FUNCTION fmt sign_file
            end).
  change (lift (Ok f) ≫= ?k) with (k f). cbv beta.
  eapply (ends_after_bind
            (λ _ st', st'.2 = contains fmt archive_formats)).
  - destruct (contains fmt archive_formats).
    + eapply ends_after_bind; [apply ends_after_anything|]. intros l2 b _.
      eapply ends_after_bind; [apply ends_after_anything|]. by intros l3 o _.
    + eapply ends_after_bind; [apply ends_after_anything|]. intros l2 b _.
      eapply ends_after_bind; [apply ends_after_anything|]. by intros l3 o _.
  - intros l2 [output' recreate'] Hflag. simpl in Hflag. subst recreate'.
    simpl. intros [v|e]; simpl; [|done].
    split; [done|]. eexists _, f. split; [done|]. split; [done|]. done.
Qed.

Lemma sign_loop_ends_after (path : string) (archive_ext : option string)
    (signing_formats : list string) (st : pyval * bool)
    (l0 : option answered) :
  ends_after
    (λ l st',
       match last signing_formats with
       | Some fmt =>
           st'.2 = contains fmt archive_formats
           ∧ ∃ ca f, l = Some ca
                     ∧ _get_signing_function_from_format fmt = Ok f
                     ∧ signed f fmt st'.1 ca
       | None => st' = st ∧ l = l0
       end)
    l0 (sign_loop path archive_ext signing_formats st).
Proof.
  revert st l0.
  induction signing_formats as [|fmt rest IH]; intros st l0; [done|].
  simpl sign_loop.
  eapply ends_after_bind; [apply sign_step_ends_after|].
  intros l1 st1 [Hflag Hcall].
  eapply ends_after_weaken; [|apply IH].
  intros l2 st2 Hrest.
  destruct rest as [|fmt' rest]; [by destruct Hrest as [-> ->]|].
  change (last (fmt :: fmt' :: rest)) with (last (fmt' :: rest)).
  destruct (last (fmt' :: rest)) eqn:E; [exact Hrest|].
  by apply last_None in E.
Qed.

(** What [sign] returns, by the last requested format: after an archive-aware
    format, the singleton list of the path the final repack returned; after
    another format, what its signing function returned, a path being wrapped
    into a singleton list; with no format, the input path in a list. *)
Lemma sign_ends_after (path : string) (signing_formats : list string) :
  ends_after
    (λ l v,
       match last signing_formats with
       | None => l = None ∧ v = PList [path]
       | Some fmt =>
           ∃ ca, l = Some ca
                 ∧ if contains fmt archive_formats
                   then ∃ s, packed path s ca ∧ v = PList [s]
                   else ∃ f r, _get_signing_function_from_format fmt = Ok f
                               ∧ signed f fmt r ca
                               ∧ v = as_list r
       end)
    None (sign path signing_formats).
Proof.
  unfold sign.
  eapply ends_after_bind; [apply sign_loop_ends_after|].
  intros l1 [output recreate] Hloop.
  destruct (last signing_formats) as [fmt|].
  - destruct Hloop as [Hflag (ca & f & -> & Hf & Hsigned)].
    simpl in Hflag, Hsigned. subst recreate.
    destruct (contains fmt archive_formats).
    + eapply (ends_after_bind
                (λ l v, ∃ ca s, l = Some ca ∧ packed path s ca ∧ v = PStr s)).
      * eapply ends_after_bind; [apply make_archive_ends_after|].
        intros l2 s (ca' & -> & Hca'). simpl. by exists ca', s.
      * intros l2 v (ca' & s & -> & Hca' & ->). simpl.
        exists ca'. split; [done|]. by exists s.
    + simpl. exists ca. split; [done|]. by exists f, output.
  - destruct Hloop as [[= -> ->] ->]. simpl. done.
Qed.

(** *** The returned value *)

(** C8, as stated, fails: the signing operations return one or more output
    locations, and when the last one returns them as a tuple, [sign], whose
    test is [isinstance(output, (tuple, list))], returns that tuple: the value
    is not a list. *)
Lemma sign_returns_the_tuple :
  (run staging_tuples (sign "/work/app.zip" ["gpg"]) []).2
  = Ok (PTuple ["/work/app.zip"; "/work/app.zip.asc"])
  ∧ ¬ ∃ l, (run staging_tuples (sign "/work/app.zip" ["gpg"]) []).2
           = Ok (PList l).
Proof.
  assert (Hrun : (run staging_tuples (sign "/work/app.zip" ["gpg"]) []).2
                 = Ok (PTuple ["/work/app.zip"; "/work/app.zip.asc"]))
    by (vm_compute; reflexivity).
  split; [exact Hrun|]. rewrite Hrun. by intros [l [=]].
Qed.

(** C8 (amended): whenever [sign] returns, the value is either the singleton
    list of the path the last operation returned (the input path when no
    format is requested, else the path the final repack or the last signing
    function returned), or the list or tuple the last signing function
    returned, as it is.  So it is a list of one or more output locations
    unless the last signing function returned an empty list or a tuple, which
    [sign] then returns unchanged. *)
Theorem sign_returns_sequence {W} (h : handler W) (w : W) (path : string)
    (signing_formats : list string) (v : pyval) :
  (run h (sign path signing_formats) w).2 = Ok v →
  (wrapped path (run_log h (sign path signing_formats) w).1 v
   ∨ passed_through (run_log h (sign path signing_formats) w).1 v)
  ∧ ((∃ l, v = PList l ∧ l ≠ [])
     ∨ (passed_through (run_log h (sign path signing_formats) w).1 v
        ∧ (v = PList [] ∨ ∃ l, v = PTuple l))).
Proof.
  intros Hrun.
  rewrite <- (proj2 (run_log_run h (sign path signing_formats) w)) in Hrun.
  pose proof (run_log_ends_after _ None h _ w v
                (sign_ends_after path signing_formats) Hrun) as Hend.
  cbv beta in Hend.
  assert (Hcases :
    wrapped path (run_log h (sign path signing_formats) w).1 v
    ∨ passed_through (run_log h (sign path signing_formats) w).1 v).
  { destruct (last signing_formats) as [fmt|].
    - destruct Hend as (ca & Hlast & Hend).
      assert (Hca : last (run_log h (sign path signing_formats) w).1 = Some ca)
        by (by destruct (last (run_log h (sign path signing_formats) w).1)).
      destruct (contains fmt archive_formats).
      + destruct Hend as (s & Hpacked & ->).
        left. exists s. split; [done|]. right. exists ca. split; [done|].
        by left.
      + destruct Hend as (f & r & _ & Hsigned & ->).
        destruct r as [s|l|l]; simpl.
        * left. exists s. split; [done|]. right. exists ca. split; [done|].
          right. by exists f, fmt.
        * right. exists ca, f, fmt. split; [done|]. split; [done|].
          left. by exists l.
        * right. exists ca, f, fmt. split; [done|]. split; [done|].
          right. by exists l.
    - destruct Hend as [Hlast ->]. left. exists path. split; [done|]. left.
      split; [|done].
      destruct (last (run_log h (sign path signing_formats) w).1) eqn:E;
        [done|].
      by apply last_None in E. }
  split; [exact Hcases|].
  destruct Hcases as [(s & -> & _)|Hpass].
  - left. by exists [s].
  - pose proof Hpass as (ca & f & fmt & _ & _ & [[l ->]|[l ->]]).
    + destruct l as [|x l]; [right; split; [done|by left]|].
      left. by exists (x :: l).
    + right. split; [done|]. right. by exists l.
Qed.

Lemma sign_returns_sequence_witness :
  (wrapped "/work/app.zip"
     (run_log staging
        (sign "/work/app.zip" ["autograph_widevine"; "autograph_gpg"]) []).1
     (PList ["/work/app.zip"; "/work/app.zip.asc"])
   ∨ passed_through
       (run_log staging
          (sign "/work/app.zip" ["autograph_widevine"; "autograph_gpg"]) []).1
       (PList ["/work/app.zip"; "/work/app.zip.asc"]))
  ∧ ((∃ l, PList ["/work/app.zip"; "/work/app.zip.asc"] = PList l ∧ l ≠ [])
     ∨ (passed_through
          (run_log staging
             (sign "/work/app.zip" ["autograph_widevine"; "autograph_gpg"])
             []).1
          (PList ["/work/app.zip"; "/work/app.zip.asc"])
        ∧ (PList ["/work/app.zip"; "/work/app.zip.asc"] = PList []
           ∨ ∃ l, PList ["/work/app.zip"; "/work/app.zip.asc"] = PTuple l))).
Proof.
  apply (sign_returns_sequence staging [] "/work/app.zip"
           ["autograph_widevine"; "autograph_gpg"]).
  vm_compute. reflexivity.
Defined.

(** The run of the specification's example: unpacked once, signed inside,
    packed once before gpg, which comes last and adds its signature. *)
Example sign_widevine_then_gpg :
  run staging (sign "/work/app.zip" ["autograph_widevine"; "autograph_gpg"]) []
  = (["/work/app.zip.unpacked"],
     [os_path_isdir "/work/app.zip";
      extract_archive (PStr "/work/app.zip");
      signing_func sign_widevine (PStr "/work/app.zip.unpacked")
                   "autograph_widevine";
      os_path_isdir "/work/app.zip.unpacked";
      _get_files (PStr "/work/app.zip.unpacked");
      _create_zipfile "/work/app.zip" ["/work/app.zip.unpacked/content"]
                      (PStr "/work/app.zip.unpacked");
      signing_func sign_gpg_with_autograph (PStr "/work/app.zip")
                   "autograph_gpg"],
     Ok (PList ["/work/app.zip"; "/work/app.zip.asc"])).
Proof. vm_compute. reflexivity. Qed.

(** A run that ends with the repack that is still owed after the loop. *)
Example sign_final_repack :
  run staging (sign "/work/app.tar.bz2" ["jar"; "autograph_omnija"]) []
  = (["/work/app.tar.bz2.unpacked"],
     [os_path_isdir "/work/app.tar.bz2";
      signing_func sign_jar (PStr "/work/app.tar.bz2") "jar";
      os_path_isdir "/work/app.tar.bz2";
      extract_archive (PStr "/work/app.tar.bz2");
      signing_func sign_omnija (PStr "/work/app.tar.bz2.unpacked")
                   "autograph_omnija";
      _get_files (PStr "/work/app.tar.bz2.unpacked");
      _create_tarfile "/work/app.tar.bz2"
                      ["/work/app.tar.bz2.unpacked/content"] "bz2"
                      (PStr "/work/app.tar.bz2.unpacked")],
     Ok (PList ["/work/app.tar.bz2"])).
Proof. vm_compute. reflexivity. Qed.

(** *** Unsupported extensions *)

(** C9: for an extension other than [.zip], [.tar.gz] and [.tar.bz2],
    [make_archive] lists the files and raises (the [ValueError] "Unsupported
    archive format", or the exception of the listing) without a packing call;
    for each of the three it makes the packing call and its outcome is the
    one of that call. *)
Theorem make_archive_unsupported_extension
    {W} (h : handler W) (w : W)
    (dirname : pyval) (archive_ext : option string) (output : string) :
  let listing := h (_get_files dirname) w in
  let out := run h (make_archive dirname archive_ext output) w in
  (archive_ext ∉ [Some ".zip"; Some ".tar.gz"; Some ".tar.bz2"] →
     out.1.2 = [_get_files dirname]
     ∧ ∃ e, out.2 = Err e
            ∧ ∀ files, listing.2 = Ok files →
                e = ValueError (Format "Unsupported archive format {}"
                                       [py_repr archive_ext]))
  ∧ (∀ files, listing.2 = Ok files →
     (archive_ext = Some ".zip" →
        out.1.2 = [_get_files dirname; _create_zipfile output files dirname]
        ∧ out.2 = (h (_create_zipfile output files dirname) listing.1).2)
     ∧ (archive_ext = Some ".tar.gz" →
        out.1.2 = [_get_files dirname;
                   _create_tarfile output files "gz" dirname]
        ∧ out.2 = (h (_create_tarfile output files "gz" dirname) listing.1).2)
     ∧ (archive_ext = Some ".tar.bz2" →
        out.1.2 = [_get_files dirname;
                   _create_tarfile output files "bz2" dirname]
        ∧ out.2 = (h (_create_tarfile output files "bz2" dirname) listing.1).2)).
Proof.
  intros listing out. subst listing out.
  unfold make_archive, await_get_files. simpl.
  destruct (h (_get_files dirname) w) as [w1 [files|e]] eqn:Eh; simpl.
  - split.
    + intros Hext.
      rewrite bool_decide_eq_false_2 by (intros ->; apply Hext; by left).
      rewrite bool_decide_eq_false_2
        by (intros Hin; apply Hext;
            apply elem_of_cons in Hin as [->|Hin]; [by right; right; left|];
            apply list_elem_of_singleton in Hin as ->; by right; left).
      simpl. split; [done|]. eexists. split; [done|]. done.
    + intros files' [= <-]. split; [|split]; intros ->.
      * rewrite bool_decide_eq_true_2 by done. simpl.
        destruct (h (_create_zipfile output files dirname) w1) as [w2 [s|e]];
          done.
      * rewrite bool_decide_eq_false_2 by done.
        rewrite bool_decide_eq_true_2 by (by right; left). simpl.
        destruct (h (_create_tarfile output files "gz" dirname) w1)
          as [w2 [s|e]]; done.
      * rewrite bool_decide_eq_false_2 by done.
        rewrite bool_decide_eq_true_2 by left. simpl.
        destruct (h (_create_tarfile output files "bz2" dirname) w1)
          as [w2 [s|e]]; done.
  - split.
    + intros Hext. split; [done|]. exists e. split; [done|]. done.
    + done.
Qed.

Lemma make_archive_unsupported_extension_witness :
  (run staging (make_archive (PStr "/work/app.unpacked") (Some ".7z")
                             "/work/app.7z") []).2
  = Err (ValueError (Format "Unsupported archive format {}" [Text ".7z"]))
  ∧ (run staging (make_archive (PStr "/work/app.unpacked") (Some ".tar.bz2")
                               "/work/app.tar.bz2") []).2
    = Ok "/work/app.tar.bz2".
Proof.
  split.
  - destruct (proj1 (make_archive_unsupported_extension
                       staging [] (PStr "/work/app.unpacked") (Some ".7z")
                       "/work/app.7z")) as [_ (e & -> & He)].
    + apply (bool_decide_unpack _). vm_compute. exact I.
    + f_equal. eapply He. reflexivity.
  - refine (proj2 (proj2 (proj2 (proj2 (make_archive_unsupported_extension
              staging [] (PStr "/work/app.unpacked") (Some ".tar.bz2")
              "/work/app.tar.bz2") _ _)) _)); reflexivity.
Defined.

(** *** The intermediate repack *)

(** C5, as stated, fails: signing ["/work/app.zip"] with an archive-aware
    format and then ["jar"] repacks the unpacked directory inside the loop,
    and that repack is told to write to ["/work/app.zip"], the input path
    and final destination; the container it produces is the one ["jar"] is
    then applied to, and it is not distinct from the final destination.  And
    when the input path is itself a directory, with no extension to repack
    with, the step raises instead of repacking. *)
Lemma sign_intermediate_repack_at_destination :
  run staging (sign "/work/app.zip" ["autograph_widevine"; "jar"]) []
  = (["/work/app.zip.unpacked"],
     [os_path_isdir "/work/app.zip";
      extract_archive (PStr "/work/app.zip");
      signing_func sign_widevine (PStr "/work/app.zip.unpacked")
                   "autograph_widevine";
      os_path_isdir "/work/app.zip.unpacked";
      _get_files (PStr "/work/app.zip.unpacked");
      _create_zipfile "/work/app.zip" ["/work/app.zip.unpacked/content"]
                      (PStr "/work/app.zip.unpacked");
      signing_func sign_jar (PStr "/work/app.zip") "jar"],
     Ok (PList ["/work/app.zip"]))
  ∧ (run staging
         (sign_step "/work/app.zip" (archive_ext_of "/work/app.zip")
                    (PStr "/work/app.zip.unpacked", true) "jar")
         ["/work/app.zip.unpacked"]).2
    = Ok (PStr "/work/app.zip", false)
  ∧ run staging (sign "/work/unpacked" ["jar"]) ["/work/unpacked"]
    = (["/work/unpacked"],
       [os_path_isdir "/work/unpacked"; _get_files (PStr "/work/unpacked")],
       Err (ValueError (Format "Unsupported archive format {}"
                               [Text "None"]))).
Proof. repeat split; vm_compute; reflexivity. Qed.

(** C5 (amended): in the loop of [sign], when the format is not
    archive-aware and the current location is a directory, the directory is
    packed with the extension of the input path and with the input path, the
    final destination, as the place to write to (the same call the final
    repack makes); the format's signing function follows on the container and
    the repack is no longer owed.  With an input path of no supported
    extension the step raises instead. *)
Theorem sign_step_repacks_at_input_path
    {W} (h : handler W) (w : W)
    (path d : string) (recreate_archive : bool) (fmt : string)
    (files : list string) :
  contains fmt archive_formats = false →
  (h (os_path_isdir d) w).2 = true →
  (h (_get_files (PStr d)) (h (os_path_isdir d) w).1).2 = Ok files →
  let out :=
    run h (sign_step path (archive_ext_of path) (PStr d, recreate_archive) fmt)
        w in
  match archive_ext_of path with
  | Some ext =>
      endswith path ext = true
      ∧ ext ∈ [".zip"; ".tar.gz"; ".tar.bz2"]
      ∧ (∃ rest,
           out.1.2 = os_path_isdir d :: _get_files (PStr d)
                     :: packing_call ext path files (PStr d) :: rest)
      ∧ ∀ output flag, out.2 = Ok (output, flag) → flag = false
  | None =>
      out.1.2 = [os_path_isdir d; _get_files (PStr d)]
      ∧ out.2 = Err (ValueError (Format "Unsupported archive format {}"
                                        [Text "None"]))
  end.
Proof.
  intros Hfmt Hdir Hfiles out. subst out.
  unfold sign_step. rewrite ResolverFacts.resolver_by_cases, Hfmt.
  simpl.
  destruct (h (os_path_isdir d) w) as [w1 b]. simpl in Hdir, Hfiles. subst b.
  simpl.
  destruct (h (_get_files (PStr d)) w1) as [w2 r]. simpl in Hfiles. subst r.
  simpl.
  destruct (archive_ext_of_cases path)
    as [[Hext Hend]|[[Hext Hend]|[[Hext Hend]|Hext]]]; rewrite Hext.
  - split; [done|]. split; [by left|].
    rewrite bool_decide_eq_true_2 by done. simpl.
    destruct (h (_create_zipfile path files (PStr d)) w2) as [w3 [s|e]];
      simpl; [|split; [by eexists|done]].
    match goal with
    | |- context [h (signing_func ?f ?p ?m) w3] =>
        destruct (h (signing_func f p m) w3) as [w4 [v|e]]
    end; simpl; (split; [by eexists|]); [|done].
    by intros output flag [= _ <-].
  - split; [done|]. split; [by right; left|].
    rewrite bool_decide_eq_false_2 by done.
    rewrite bool_decide_eq_true_2 by (by right; left). simpl.
    destruct (h (_create_tarfile path files "gz" (PStr d)) w2) as [w3 [s|e]];
      simpl; [|split; [by eexists|done]].
    match goal with
    | |- context [h (signing_func ?f ?p ?m) w3] =>
        destruct (h (signing_func f p m) w3) as [w4 [v|e]]
    end; simpl; (split; [by eexists|]); [|done].
    by intros output flag [= _ <-].
  - split; [done|]. split; [by right; right; left|].
    rewrite bool_decide_eq_false_2 by done.
    rewrite bool_decide_eq_true_2 by left. simpl.
    destruct (h (_create_tarfile path files "bz2" (PStr d)) w2) as [w3 [s|e]];
      simpl; [|split; [by eexists|done]].
    match goal with
    | |- context [h (signing_func ?f ?p ?m) w3] =>
        destruct (h (signing_func f p m) w3) as [w4 [v|e]]
    end; simpl; (split; [by eexists|]); [|done].
    by intros output flag [= _ <-].
  - rewrite bool_decide_eq_false_2 by done.
    rewrite bool_decide_eq_false_2
      by (apply (bool_decide_unpack _); vm_compute; exact I).
    simpl. done.
Qed.

Lemma sign_step_repacks_at_input_path_witness :
  ∃ rest,
    (run staging
         (sign_step "/work/app.tar.gz" (archive_ext_of "/work/app.tar.gz")
                    (PStr "/work/app.tar.gz.unpacked", true) "jar")
         ["/work/app.tar.gz.unpacked"]).1.2
    = os_path_isdir "/work/app.tar.gz.unpacked"
      :: _get_files (PStr "/work/app.tar.gz.unpacked")
      :: _create_tarfile "/work/app.tar.gz"
           ["/work/app.tar.gz.unpacked/content"] "gz"
           (PStr "/work/app.tar.gz.unpacked")
      :: rest.
Proof.
  refine (proj1 (proj2 (proj2
            (sign_step_repacks_at_input_path staging
               ["/work/app.tar.gz.unpacked"] "/work/app.tar.gz"
               "/work/app.tar.gz.unpacked" true "jar"
               ["/work/app.tar.gz.unpacked/content"] _ _ _))));
    reflexivity.
Defined.

End LifecycleFacts.

(** * Further properties *)

(** ** Format Orderer *)

Module OrdererExtra.
Import Orderer OrdererFacts.

(** The last format of the loop that is requested ends up last. *)
Lemma sort_with_last ps xs :
  last (sort_with ps xs)
  = match last (filter (λ p, p ∈ xs) ps) with
    | Some p => Some p
    | None => last xs
    end.
Proof.
  induction ps as [|p ps IH] using rev_ind; [done|].
  unfold sort_with. rewrite foldl_snoc. fold (sort_with ps xs).
  rewrite filter_app, filter_cons, filter_nil.
  unfold sort_step, Py.list_append.
  destruct (Py.contains p (sort_with ps xs)) eqn:E.
  - apply contains_true in E. rewrite sort_with_perm in E.
    rewrite decide_True by done. by rewrite !last_snoc.
  - apply contains_false in E. rewrite sort_with_perm in E.
    rewrite decide_False by done. by rewrite app_nil_r.
Qed.

Lemma filter_nothing (P : string → Prop) `{!∀ x, Decision (P x)} (l : list string) :
  (∀ x, x ∈ l → ¬ P x) → filter P l = [].
Proof.
  induction l as [|x l IH]; intros Hl; [done|].
  rewrite filter_cons_False by (apply Hl; by left).
  apply IH. intros y Hy. apply Hl. by right.
Qed.

Lemma filter_everything (P : string → Prop) `{!∀ x, Decision (P x)} (l : list string) :
  (∀ x, x ∈ l → P x) → filter P l = l.
Proof.
  induction l as [|x l IH]; intros Hl; [done|].
  rewrite filter_cons_True by (apply Hl; by left).
  f_equal. apply IH. intros y Hy. apply Hl. by right.
Qed.

(** X1: on a request that repeats no priority format, [_sort_formats]
    returns the formats outside the priority list in their input order,
    followed by the requested priority formats in the order of the priority
    list. *)
Theorem sort_formats_closed_form (xs : list string) :
  NoDup (priority_part xs) →
  _sort_formats xs = unordered_part xs ++ filter (λ p, p ∈ xs) priority.
Proof. apply sort_formats_spec. Qed.

Lemma sort_formats_closed_form_witness :
  _sort_formats ["gpg"; "focus-jar"; "macapp"; "jar"; "widevine"]
  = unordered_part ["gpg"; "focus-jar"; "macapp"; "jar"; "widevine"]
    ++ filter (λ p, p ∈ ["gpg"; "focus-jar"; "macapp"; "jar"; "widevine"])
              priority.
Proof.
  apply sort_formats_closed_form.
  apply (bool_decide_unpack _). vm_compute. exact I.
Defined.

(** X2: whatever the request, the formats outside the priority list come out
    of [_sort_formats] in the relative order they came in. *)
Theorem sort_formats_keeps_other_formats (xs : list string) :
  unordered_part (_sort_formats xs) = unordered_part xs.
Proof. apply unordered_part_sort. Qed.

(** X3: whatever the request (repeats included), the last format of the
    result is the requested priority format that stands last in the priority
    list: ["autograph_gpg"] when it is requested, else ["gpg"] when that is
    requested; and a request without priority formats is returned as it
    is. *)
Theorem sort_formats_last (xs : list string) :
  ("autograph_gpg" ∈ xs → last (_sort_formats xs) = Some "autograph_gpg")
  ∧ ("gpg" ∈ xs → "autograph_gpg" ∉ xs → last (_sort_formats xs) = Some "gpg")
  ∧ (∀ p, last (filter (λ p, p ∈ xs) priority) = Some p →
          last (_sort_formats xs) = Some p)
  ∧ ((∀ p, p ∈ priority → p ∉ xs) → _sort_formats xs = xs).
Proof.
  assert (Hlast : ∀ p, last (filter (λ p, p ∈ xs) priority) = Some p →
                       last (_sort_formats xs) = Some p).
  { intros p Hp. unfold _sort_formats. by rewrite sort_with_last, Hp. }
  split; [|split; [|split]].
  - intros Hin. apply Hlast. unfold priority.
    change ["widevine"; "autograph_widevine"; "autograph_omnija"; "macapp";
            "gpg"; "autograph_gpg"]
      with (["widevine"; "autograph_widevine"; "autograph_omnija"; "macapp";
             "gpg"] ++ ["autograph_gpg"]).
    rewrite filter_app, (filter_cons_True _ "autograph_gpg") by done.
    rewrite filter_nil. apply last_snoc.
  - intros Hgpg Hnot. apply Hlast. unfold priority.
    change ["widevine"; "autograph_widevine"; "autograph_omnija"; "macapp";
            "gpg"; "autograph_gpg"]
      with (["widevine"; "autograph_widevine"; "autograph_omnija"; "macapp"]
            ++ ["gpg"] ++ ["autograph_gpg"]).
    rewrite !filter_app, (filter_cons_True _ "gpg") by done.
    rewrite (filter_cons_False _ "autograph_gpg") by done.
    rewrite !filter_nil, app_nil_r. apply last_snoc.
  - exact Hlast.
  - intros Hnone.
    assert (Hempty : priority_part xs = []).
    { apply filter_nothing. intros x Hx Hp. by apply (Hnone x). }
    rewrite sort_formats_spec by (rewrite Hempty; constructor).
    rewrite (filter_nothing (λ p, p ∈ xs) priority) by done.
    rewrite app_nil_r. apply filter_everything.
    intros x Hx Hp. by apply (Hnone x).
Qed.

Lemma sort_formats_last_witness :
  last (_sort_formats ["autograph_gpg"; "jar"; "autograph_gpg"; "gpg"])
  = Some "autograph_gpg"
  ∧ last (_sort_formats ["gpg"; "widevine"; "jar"]) = Some "gpg"
  ∧ _sort_formats ["jar"; "focus-jar"] = ["jar"; "focus-jar"].
Proof.
  split; [|split].
  - apply (proj1 (sort_formats_last _)).
    apply (bool_decide_unpack _). vm_compute. exact I.
  - apply (proj1 (proj2 (sort_formats_last _)));
      apply (bool_decide_unpack _); vm_compute; exact I.
  - apply (proj2 (proj2 (proj2 (sort_formats_last _)))).
    intros p Hp. apply (bool_decide_unpack _).
    unfold priority in Hp.
    repeat (apply elem_of_cons in Hp as [->|Hp]; [vm_compute; exact I|]).
    by apply not_elem_of_nil in Hp.
Defined.

End OrdererExtra.

(** ** Format Resolver *)

Module ResolverExtra.
Import Py Resolver ResolverFacts Prefixes.

Lemma is_void_not_nullable r : is_void r = true → Re.nullable r = false.
Proof.
  induction r as [| | | | |r1 IH1 r2 IH2|r1 IH1 r2 IH2|r IH]; simpl; try done.
  - intros [H|H]%orb_true_iff.
    + by rewrite IH1.
    + rewrite IH2 by done. apply andb_false_r.
  - intros [H1 H2]%andb_true_iff. by rewrite IH1, IH2.
Qed.

Lemma is_void_deriv c r : is_void r = true → is_void (Re.deriv c r) = true.
Proof.
  induction r as [| | | | |r1 IH1 r2 IH2|r1 IH1 r2 IH2|r IH]; simpl; try done.
  - intros [H|H]%orb_true_iff.
    + rewrite (is_void_not_nullable r1 H). simpl. by rewrite IH1.
    + destruct (Re.nullable r1); simpl.
      * rewrite H, IH2 by done. by rewrite orb_true_r.
      * rewrite H. apply orb_true_r.
  - intros [H1 H2]%andb_true_iff. by rewrite IH1, IH2.
Qed.

(** Nothing is matched by an expression that matches no string. *)
Lemma matches_prefix_void r s : is_void r = true → Re.matches_prefix r s = false.
Proof.
  revert r. induction s as [|c s IH]; intros r Hr; simpl.
  - rewrite (is_void_not_nullable r Hr). done.
  - rewrite (is_void_not_nullable r Hr). simpl.
    apply IH. by apply is_void_deriv.
Qed.

(** Matching a string given in two parts. *)
Lemma matches_prefix_app r s1 s2 :
  Re.matches_prefix r (s1 ++ s2)
  = matches_inside r s1 || Re.matches_prefix (derivs s1 r) s2.
Proof.
  revert r. induction s1 as [|c s1 IH]; intros r; [done|].
  simpl. rewrite IH. by rewrite orb_assoc.
Qed.

Lemma list_ascii_of_string_app (a b : string) :
  list_ascii_of_string (a +:+ b)
  = list_ascii_of_string a ++ list_ascii_of_string b.
Proof.
  induction a as [|c a IH]; [done|].
  change (String c a +:+ b) with (String c (a +:+ b)).
  simpl. by rewrite IH.
Qed.

(** A verdict on the beginning of a request holds for the whole request. *)
Lemma verdict_sound (pattern P s : string) (b : bool) :
  verdict pattern P = Some b → Re.re_match pattern (P +:+ s) = Ok b.
Proof.
  unfold verdict, Re.re_match.
  destruct (Re.compile pattern) as [r|]; [|done].
  rewrite list_ascii_of_string_app, matches_prefix_app.
  destruct (matches_inside r (list_ascii_of_string P)); simpl.
  - by intros [= <-].
  - destruct (Re.nullable (derivs (list_ascii_of_string P) r)) eqn:En.
    + intros [= <-]. f_equal.
      by destruct (list_ascii_of_string s); simpl; rewrite En.
    + destruct (is_void (derivs (list_ascii_of_string P) r)) eqn:Ev; [|done].
      intros [= <-]. f_equal. by apply matches_prefix_void.
Qed.

(** When the beginning [P] settles every pattern of the registry, the items
    that match a request beginning with [P] are the settled ones. *)
Lemma matching_items_settled (P s : string) :
  Forall (λ item : string * signing_function, is_Some (verdict item.1 P))
         FORMAT_TO_SIGNING_FUNCTION →
  matching_items (P +:+ s) = settled_items P.
Proof.
  unfold matching_items, settled_items.
  generalize FORMAT_TO_SIGNING_FUNCTION as items. intros items Hall.
  induction Hall as [|item items [b Hb] Hall IH]; [done|].
  rewrite !filter_cons, IH.
  rewrite (verdict_sound _ _ s b Hb), Hb.
  destruct b.
  - by rewrite !decide_True.
  - by rewrite !decide_False.
Qed.

Ltac settle := apply (bool_decide_unpack _); vm_compute; exact I.

(** A request whose beginning settles every pattern, one of them as
    matching, resolves to the function of that pattern. *)
Lemma resolve_settled_single (P s key : string) (f : signing_function) :
  Forall (λ item : string * signing_function, is_Some (verdict item.1 P))
         FORMAT_TO_SIGNING_FUNCTION →
  settled_items P = [(key, f)] →
  _get_signing_function_from_format (P +:+ s) = Ok f.
Proof.
  intros Hall Hone.
  by rewrite resolver_by_cases, matching_items_settled, Hone.
Qed.

(** X4: the resolver never raises, and it returns a function other than the
    default [sign_file] only when a registry key bound to that function
    matches the beginning of the request. *)
Theorem resolver_total (format : string) :
  ∃ f,
    _get_signing_function_from_format format = Ok f
    ∧ (f = sign_file
       ∨ ∃ key, (key, f) ∈ FORMAT_TO_SIGNING_FUNCTION
                ∧ Re.re_match key format = Ok true).
Proof.
  rewrite resolver_by_cases.
  destruct (matching_items format) as [|[k f] [|item items]] eqn:E.
  - eexists. split; [done|]. left.
    unfold dict_get. by rewrite (no_match_no_key format E).
  - exists f. split; [done|]. right. exists k.
    assert (Hin : (k, f) ∈ matching_items format) by (rewrite E; by left).
    unfold matching_items in Hin.
    by apply list_elem_of_filter in Hin as [? ?].
  - eexists. split; [done|]. unfold dict_get.
    destruct (dict_lookup FORMAT_TO_SIGNING_FUNCTION format) as [g|] eqn:El;
      [|by left].
    right. exists format. apply registry_lookup in El. split; [done|].
    exact (proj1 (Forall_forall _ _) registry_keys_match_themselves _ El).
Qed.

(** X5: every name of the registry resolves to the function registered
    under it; and so does every request that begins with a name of the
    registry other than ["autograph_authenticode"] and
    ["autograph_authenticode_stub"], whatever follows the name. *)
Theorem registered_names_resolve (key : string) (f : signing_function) :
  (key, f) ∈ FORMAT_TO_SIGNING_FUNCTION →
  _get_signing_function_from_format key = Ok f
  ∧ (key ∉ ["autograph_authenticode"; "autograph_authenticode_stub"] →
     ∀ s, _get_signing_function_from_format (key +:+ s) = Ok f).
Proof.
  unfold FORMAT_TO_SIGNING_FUNCTION at 1. intros Hin.
  repeat (apply elem_of_cons in Hin as [[= -> ->]|Hin];
          [split;
           [vm_compute; reflexivity
           |intros Hkey s;
            first [ eapply resolve_settled_single;
                    [settle|vm_compute; reflexivity]
                  | exfalso; apply Hkey; settle ]]|]).
  by apply not_elem_of_nil in Hin.
Qed.

Lemma registered_names_resolve_witness :
  _get_signing_function_from_format "autograph_authenticode_stub"
  = Ok sign_authenticode_zip
  ∧ _get_signing_function_from_format ("focus-jar" +:+ "-v2") = Ok sign_jar.
Proof.
  split.
  - apply (proj1 (registered_names_resolve "autograph_authenticode_stub"
                    sign_authenticode_zip ltac:(settle))).
  - apply (proj2 (registered_names_resolve "focus-jar" sign_jar
                    ltac:(settle))).
    settle.
Defined.

(** X6: every request that begins with ["autograph_hash_only_mar384"] or
    with ["autograph_stage_mar384"], with or without a [:word] after it,
    resolves to [sign_mar384_with_autograph_hash]. *)
Theorem mar384_requests_resolve (s : string) :
  _get_signing_function_from_format ("autograph_hash_only_mar384" +:+ s)
  = Ok sign_mar384_with_autograph_hash
  ∧ _get_signing_function_from_format ("autograph_stage_mar384" +:+ s)
    = Ok sign_mar384_with_autograph_hash.
Proof.
  split; eapply resolve_settled_single; first [settle|vm_compute; reflexivity].
Qed.

Lemma matches_after_any_char_sound (r : Re.regex) (c : ascii) :
  matches_after_any_char r = true → Re.is_newline c = false →
  Re.nullable (Re.deriv c r) = true.
Proof.
  intros Hr Hc.
  induction r as [| | | | |r1 IH1 r2 IH2|r1 IH1 r2 IH2|r IH]; simpl in *;
    try done.
  - by rewrite Hc.
  - apply orb_true_iff in Hr as [[H1 H2]%andb_true_iff|[H1 H2]%andb_true_iff].
    + destruct (Re.nullable r1); simpl; rewrite IH1, H2 by done; done.
    + rewrite H1. simpl. rewrite IH2 by done. apply orb_true_r.
  - apply orb_true_iff in Hr as [H|H].
    + by rewrite IH1.
    + rewrite IH2 by done. apply orb_true_r.
  - by rewrite IH.
Qed.

Lemma matches_prefix_cons_nullable (r : Re.regex) (c : ascii) (l : list ascii) :
  Re.nullable (Re.deriv c r) = true → Re.matches_prefix r (c :: l) = true.
Proof.
  intros Hn. simpl. apply orb_true_iff. right.
  destruct l; simpl; by rewrite Hn.
Qed.

(** The items that match a request, when every pattern is told apart. *)
Lemma matching_items_by (format : string)
    (g : string * signing_function → bool) :
  Forall (λ item, Re.re_match item.1 format = Ok (g item))
         FORMAT_TO_SIGNING_FUNCTION →
  matching_items format
  = filter (λ item, g item = true) FORMAT_TO_SIGNING_FUNCTION.
Proof.
  unfold matching_items.
  generalize FORMAT_TO_SIGNING_FUNCTION as items. intros items Hall.
  induction Hall as [|item items Hitem Hall IH]; [done|].
  rewrite !filter_cons, IH, Hitem.
  destruct (g item).
  - by rewrite !decide_True.
  - by rewrite !decide_False.
Qed.

(** X7: a request made of ["autograph_apk_"] and at least one more
    character, the first of them not a newline, resolves to [sign_jar];
    ["autograph_apk_"] alone resolves to the default [sign_file]. *)
Theorem apk_requests_resolve (c : ascii) (s : string) :
  (Re.is_newline c = false →
   _get_signing_function_from_format ("autograph_apk_" +:+ String c s)
   = Ok sign_jar)
  ∧ _get_signing_function_from_format "autograph_apk_" = Ok sign_file.
Proof.
  split; [|vm_compute; reflexivity].
  intros Hc. rewrite resolver_by_cases.
  rewrite (matching_items_by _
             (λ item, bool_decide (item.1 = "autograph_apk_.+"))).
  { vm_compute. reflexivity. }
  assert (Hothers :
    Forall (λ item : string * signing_function,
              item.1 = "autograph_apk_.+"
              ∨ verdict item.1 "autograph_apk_" = Some false)
           FORMAT_TO_SIGNING_FUNCTION) by settle.
  eapply Forall_impl; [exact Hothers|].
  intros [key f] [Hkey|Hdead]; simpl in *.
  - subst key. rewrite bool_decide_eq_true_2 by done.
    unfold Re.re_match.
    destruct (Re.compile "autograph_apk_.+") as [r|] eqn:Er;
      [|vm_compute in Er; discriminate].
    vm_compute in Er. injection Er as <-.
    rewrite list_ascii_of_string_app, matches_prefix_app. f_equal.
    apply orb_true_iff. right.
    apply matches_prefix_cons_nullable, matches_after_any_char_sound;
      [vm_compute; reflexivity|done].
  - rewrite (verdict_sound _ _ _ _ Hdead). f_equal. symmetry.
    apply bool_decide_eq_false_2. intros ->. vm_compute in Hdead. discriminate.
Qed.

Lemma apk_requests_resolve_witness :
  _get_signing_function_from_format ("autograph_apk_" +:+ "fennec_sha1")
  = Ok sign_jar.
Proof.
  apply (proj1 (apk_requests_resolve "f" "ennec_sha1")). reflexivity.
Defined.

(** X8: a request made of ["autograph_authenticode_stub"] and at least one
    more character is matched by two keys and is no key itself: it resolves
    to the default [sign_file], while ["autograph_authenticode_stub"] itself
    resolves to [sign_authenticode_zip]. *)
Theorem authenticode_stub_extended (c : ascii) (s : string) :
  _get_signing_function_from_format
    ("autograph_authenticode_stub" +:+ String c s) = Ok sign_file
  ∧ matching_items ("autograph_authenticode_stub" +:+ String c s)
    = [("autograph_authenticode", sign_authenticode_zip);
       ("autograph_authenticode_stub", sign_authenticode_zip)]
  ∧ _get_signing_function_from_format "autograph_authenticode_stub"
    = Ok sign_authenticode_zip.
Proof.
  assert (Hitems :
    matching_items ("autograph_authenticode_stub" +:+ String c s)
    = [("autograph_authenticode", sign_authenticode_zip);
       ("autograph_authenticode_stub", sign_authenticode_zip)]).
  { rewrite matching_items_settled by settle. vm_compute. reflexivity. }
  split; [|split]; [|exact Hitems|vm_compute; reflexivity].
  rewrite resolver_by_cases, Hitems. reflexivity.
Qed.

End ResolverExtra.

(** ** Scope Authorizer *)

Module AuthorizerExtra.
Import Py Data Resolver Authorizer AuthorizerFacts.

Lemma forallb_startswith (scopes : list string) (prefix : string) :
  forallb (λ scope, startswith scope prefix) scopes = true
  ↔ ∀ scope, scope ∈ scopes → startswith scope prefix = true.
Proof.
  induction scopes as [|s ss IH]; simpl.
  - split; [|done]. intros _ scope Hin. by apply not_elem_of_nil in Hin.
  - rewrite andb_true_iff, IH. split.
    + intros [Hs Hss] scope [->|Hin]%elem_of_cons; [done|by apply Hss].
    + intros Hall. split; [apply Hall; by left|].
      intros scope Hin. apply Hall. by right.
Qed.

Lemma check_prefixes_loop_ok (scopes all_prefixes prefixes : list string) :
  check_prefixes_loop scopes all_prefixes prefixes = Ok ()
  ↔ ∃ prefix, prefix ∈ prefixes
              ∧ ∀ scope, scope ∈ scopes → startswith scope prefix = true.
Proof.
  induction prefixes as [|p ps IH]; simpl.
  - split; [done|]. intros (q & Hq & _). by apply not_elem_of_nil in Hq.
  - destruct (forallb (λ scope, startswith scope p) scopes) eqn:E.
    + split; [|done]. intros _. exists p. split; [by left|].
      by apply forallb_startswith.
    + rewrite IH. split.
      * intros (q & Hq & Hall). exists q. split; [by right|done].
      * intros (q & [->|Hq]%elem_of_cons & Hall); [|by exists q].
        apply forallb_startswith in Hall. congruence.
Qed.

(** X9: [_check_scopes_exist_and_all_have_the_same_prefix] passes exactly
    when some prefix of the list is a prefix of every scope, and raises
    [TaskVerificationError] otherwise.  An empty list of scopes passes as
    soon as there is a prefix at all; with no prefix nothing passes. *)
Theorem check_same_prefix_spec (scopes prefixes : list string) :
  (_check_scopes_exist_and_all_have_the_same_prefix scopes prefixes = Ok ()
   ↔ ∃ prefix, prefix ∈ prefixes
               ∧ ∀ scope, scope ∈ scopes → startswith scope prefix = true)
  ∧ (_check_scopes_exist_and_all_have_the_same_prefix scopes prefixes = Ok ()
     ∨ ∃ m, _check_scopes_exist_and_all_have_the_same_prefix scopes prefixes
            = Err (TaskVerificationError m))
  ∧ (_check_scopes_exist_and_all_have_the_same_prefix [] prefixes = Ok ()
     ↔ prefixes ≠ [])
  ∧ ∃ m, _check_scopes_exist_and_all_have_the_same_prefix scopes []
         = Err (TaskVerificationError m).
Proof.
  unfold _check_scopes_exist_and_all_have_the_same_prefix.
  split; [apply check_prefixes_loop_ok|].
  split; [apply check_prefixes_loop_cases|].
  split; [|by eexists].
  rewrite check_prefixes_loop_ok. split.
  - intros (p & Hp & _) ->. by apply not_elem_of_nil in Hp.
  - destruct prefixes as [|p ps]; [done|]. intros _.
    exists p. split; [by left|]. intros scope Hin.
    by apply not_elem_of_nil in Hin.
Qed.

Lemma check_same_prefix_spec_witness :
  _check_scopes_exist_and_all_have_the_same_prefix
    ["project:releng:signing:cert:release-signing";
     "project:releng:signing:cert:nightly-signing"]
    ["project:comm:thunderbird:releng:signing:cert:";
     "project:releng:signing:cert:"]
  = Ok ().
Proof.
  apply (proj2 (proj1 (check_same_prefix_spec _ _))).
  exists "project:releng:signing:cert:". split; [by right; left|].
  intros scope Hin.
  repeat (apply elem_of_cons in Hin as [->|Hin]; [reflexivity|]).
  by apply not_elem_of_nil in Hin.
Defined.

(** X10: a scope [task_cert_type] returns is a scope of the task and starts
    with one of the constructed certificate prefixes; and the only exception
    it raises is [TaskVerificationError]. *)
Theorem task_cert_type_sound (context : Context) :
  (∀ scope,
     task_cert_type context = Ok scope →
     ∃ t, task context = Some t
          ∧ scope ∈ scopes t
          ∧ ∃ prefix, prefix ∈ _get_cert_prefixes context
                      ∧ startswith scope prefix = true)
  ∧ (∀ e, task_cert_type context = Err e → ∃ m, e = TaskVerificationError m).
Proof.
  destruct (task_cert_type_cases context)
    as [(t & s & Ht & Hone & Hok)|[m Hm]].
  - split.
    + intros scope Hscope. rewrite Hok in Hscope. injection Hscope as <-.
      exists t. split; [done|].
      apply elem_of_scopes_with_prefix. rewrite Hone. by left.
    + intros e He. by rewrite Hok in He.
  - split.
    + intros scope Hscope. by rewrite Hm in Hscope.
    + intros e He. rewrite Hm in He. injection He as <-. by exists m.
Qed.

Lemma task_cert_type_sound_witness :
  ∃ t, task (two_prefixes ["queue:route:index.project.releng";
                           "project:releng:signing:cert:release-signing"])
       = Some t
       ∧ "project:releng:signing:cert:release-signing" ∈ scopes t
       ∧ ∃ prefix,
           prefix ∈ _get_cert_prefixes
                      (two_prefixes
                         ["queue:route:index.project.releng";
                          "project:releng:signing:cert:release-signing"])
           ∧ startswith "project:releng:signing:cert:release-signing" prefix
             = true.
Proof.
  apply (proj1 (task_cert_type_sound _)). reflexivity.
Defined.

(** The entries the comprehension lists for one scope. *)
Lemma scopes_with_prefix_one (scope : string) (prefixes : list string) :
  (prefixes ≫= λ prefix, if startswith scope prefix then [scope] else [])
  = replicate
      (length (filter (λ prefix, startswith scope prefix = true) prefixes))
      scope.
Proof.
  induction prefixes as [|p ps IH]; [done|].
  rewrite bind_cons, IH, filter_cons.
  destruct (startswith scope p) eqn:E.
  - by rewrite decide_True.
  - by rewrite decide_False.
Qed.

(** When no scope starts with two entries of the prefix list, the
    comprehension lists each matching scope once. *)
Lemma scopes_with_prefix_unambiguous (scopes prefixes : list string) :
  (∀ scope, scope ∈ scopes →
     (length (filter (λ prefix, startswith scope prefix = true) prefixes)
      ≤ 1)%nat) →
  scopes_with_prefix scopes prefixes = matching_scopes scopes prefixes.
Proof.
  unfold scopes_with_prefix, matching_scopes.
  induction scopes as [|s ss IH]; intros Hone; [done|].
  rewrite bind_cons, IH by (intros; apply Hone; by right).
  rewrite scopes_with_prefix_one, filter_cons.
  pose proof (Hone s ltac:(by left)) as Hs.
  destruct (filter (λ prefix, startswith s prefix = true) prefixes)
    as [|p [|q l]] eqn:E; simpl in *; [| |lia].
  - rewrite decide_False; [done|].
    intros (p & Hp & Hstart)%Exists_exists.
    assert (Hin : p ∈ filter (λ prefix, startswith s prefix = true) prefixes)
      by (by apply list_elem_of_filter).
    rewrite E in Hin. by apply not_elem_of_nil in Hin.
  - rewrite decide_True; [done|].
    apply Exists_exists. exists p.
    assert (Hin : p ∈ filter (λ prefix, startswith s prefix = true) prefixes)
      by (rewrite E; by left).
    by apply list_elem_of_filter in Hin as [? ?].
Qed.

Lemma task_cert_type_of_single (context : Context) (t : task_dict)
    (scope : string) :
  task context = Some t →
  scopes_with_prefix (scopes t) (_get_cert_prefixes context) = [scope] →
  task_cert_type context = Ok scope.
Proof.
  intros Ht Hone.
  unfold task_cert_type. rewrite Ht.
  destruct (scopes t) as [|s0 ss] eqn:Es; [done|].
  unfold _extract_scopes_from_unique_prefix,
    _check_scopes_exist_and_all_have_the_same_prefix.
  rewrite Hone.
  rewrite check_prefixes_loop_single; [reflexivity|].
  assert (Hin : scope ∈ scopes_with_prefix (s0 :: ss) (_get_cert_prefixes context))
    by (rewrite Hone; by left).
  by apply elem_of_scopes_with_prefix in Hin as [_ ?].
Qed.

(** X11: when no scope of the task starts with two entries of the
    constructed prefix list, a task in which exactly one scope starts with a
    constructed prefix gets that scope from [task_cert_type]. *)
Theorem task_cert_type_unambiguous (context : Context) (t : task_dict)
    (scope : string) :
  task context = Some t →
  (∀ s, s ∈ scopes t →
     (length (filter (λ prefix, startswith s prefix = true)
                     (_get_cert_prefixes context)) ≤ 1)%nat) →
  matching_scopes (scopes t) (_get_cert_prefixes context) = [scope] →
  task_cert_type context = Ok scope.
Proof.
  intros Ht Hone Hmatch. apply (task_cert_type_of_single context t); [done|].
  by rewrite scopes_with_prefix_unambiguous.
Qed.

Lemma task_cert_type_unambiguous_witness :
  task_cert_type
    (two_prefixes ["queue:route:index.project.releng";
                   "project:comm:thunderbird:releng:signing:cert:dep-signing"])
  = Ok "project:comm:thunderbird:releng:signing:cert:dep-signing".
Proof.
  eapply task_cert_type_unambiguous; [reflexivity| |reflexivity].
  intros s Hs. simpl in Hs.
  repeat (apply elem_of_cons in Hs as [->|Hs]; [vm_compute; lia|]).
  by apply not_elem_of_nil in Hs.
Defined.

Lemma endswith_self (b : string) : endswith b b = true.
Proof.
  destruct b as [|c b]; [done|].
  change (bool_decide (String c b = String c b)
          || endswith b (String c b) = true).
  by rewrite bool_decide_eq_true_2.
Qed.

Lemma endswith_suffix (a b : string) : endswith (a +:+ b) b = true.
Proof.
  induction a as [|c a IH]; [apply endswith_self|].
  change (String c a +:+ b) with (String c (a +:+ b)).
  simpl. rewrite IH. apply orb_true_r.
Qed.

Lemma endswith_colon (p : string) :
  endswith p ":" = true → ∃ x, p = x +:+ ":".
Proof.
  induction p as [|c p IH]; [done|].
  intros Hend.
  change (bool_decide (String c p = ":") || endswith p ":" = true) in Hend.
  apply orb_true_iff in Hend as [Heq%bool_decide_eq_true|Hend].
  - exists "". by rewrite Heq.
  - destruct (IH Hend) as [x ->]. by exists (String c x).
Qed.

Lemma string_append_assoc (a b c : string) : (a +:+ b) +:+ c = a +:+ b +:+ c.
Proof.
  induction a as [|x a IH]; [done|].
  change (String x ((a +:+ b) +:+ c) = String x (a +:+ b +:+ c)).
  by rewrite IH.
Qed.

(** X12: [_get_scope_prefixes] builds one prefix per configured prefix; each
    ends with [:{sub_namespace}:]; and a configured prefix gives the same
    result with or without its final colon. *)
Theorem scope_prefixes_normalised (context : Context) (sub_namespace : string) :
  length (_get_scope_prefixes context sub_namespace)
  = length (taskcluster_scope_prefixes (config context))
  ∧ (∀ prefix,
       prefix ∈ _get_scope_prefixes context sub_namespace →
       endswith prefix (":" +:+ sub_namespace +:+ ":") = true)
  ∧ (∀ context',
       Forall2 (λ p p', p' = p ∨ (endswith p ":" = false ∧ p' = p +:+ ":"))
               (taskcluster_scope_prefixes (config context))
               (taskcluster_scope_prefixes (config context')) →
       _get_scope_prefixes context sub_namespace
       = _get_scope_prefixes context' sub_namespace).
Proof.
  unfold _get_scope_prefixes. split; [|split].
  - by rewrite !length_map.
  - intros prefix Hin.
    apply list_elem_of_fmap in Hin as (q & -> & Hq).
    apply list_elem_of_fmap in Hq as (p & -> & _).
    assert (Hcolon : ∃ x, (if endswith p ":" then p else p +:+ ":") = x +:+ ":").
    { destruct (endswith p ":") eqn:E; [by apply endswith_colon|by exists p]. }
    destruct Hcolon as [x ->].
    rewrite string_append_assoc. apply endswith_suffix.
  - intros context' Hrel. f_equal.
    induction Hrel as [|p p' ps ps' Hp Hrel IH]; [done|].
    simpl. rewrite IH. f_equal.
    destruct Hp as [->|[Hend ->]]; [done|].
    rewrite Hend. by rewrite endswith_suffix.
Qed.

Lemma scope_prefixes_normalised_witness :
  _get_scope_prefixes (two_prefixes []) "cert"
  = _get_scope_prefixes
      {| task := None;
         config := {| taskcluster_scope_prefixes :=
                        ["project:releng:signing:";
                         "project:comm:thunderbird:releng:signing:"];
                      work_dir := "/builds/scriptworker/work" |} |}
      "cert".
Proof.
  apply (proj2 (proj2 (scope_prefixes_normalised _ _))).
  simpl. constructor; [right; split; reflexivity|].
  constructor; [left; reflexivity|]. constructor.
Defined.

End AuthorizerExtra.

(** ** Upstream Artifact Resolver and the signing formats of a task *)

Module ArtifactResolverExtra.
Import Py Data Orderer ArtifactResolver SigningFormats.
Import OrdererFacts ArtifactResolverFacts.

(** [os.path.join] starts again at an absolute component: the location of
    a declared path that is absolute is that path. *)
Lemma location_absolute (context : Context) (a : artifact_dict)
    (path : string) :
  startswith path "/" = true → location context (a, path) = path.
Proof.
  intros Habs. unfold location, os_path_join. simpl.
  unfold join_step at 1. by rewrite Habs.
Qed.

(** X13: a declared path that is absolute is looked for, and recorded, at
    that very path, outside the work directory.  When nothing is at that
    path, [build_filelist_dict] raises and its report has the line of that
    path itself; when it returns, something is at that path and the entry of
    the dict under the path has it as its [full_path]. *)
Theorem build_filelist_dict_absolute_path
    (os_path_exists : string → bool) (context : Context) (t : task_dict)
    (h0 : heap) (a : artifact_dict) (path : string) :
  task context = Some t →
  (a, path) ∈ declared_files t →
  startswith path "/" = true →
  (os_path_exists path = false →
   ∃ lines,
     (build_filelist_dict os_path_exists context h0).2
     = Err (TaskVerificationError (py_repr lines))
     ∧ path +:+ " doesn't exist!" ∈ lines)
  ∧ (∀ d,
       (build_filelist_dict os_path_exists context h0).2 = Ok d →
       os_path_exists path = true
       ∧ ∃ e, d !! path = Some e ∧ FileEntry.full_path e = path).
Proof.
  intros Ht Hin Habs.
  destruct (build_filelist_dict_spec os_path_exists context t h0 Ht)
    as (h & d' & Hout & Hd & _).
  rewrite Hout. simpl.
  assert (Hmissing :
    os_path_exists path = false →
    (a, path) ∈ missing_files os_path_exists context t).
  { intros Hnot. apply list_elem_of_filter. split; [|done].
    by rewrite location_absolute. }
  split.
  - intros Hnot. specialize (Hmissing Hnot).
    exists (map (missing_message context)
                (missing_files os_path_exists context t)).
    split.
    + destruct (missing_files os_path_exists context t); [|done].
      by apply not_elem_of_nil in Hmissing.
    + apply list_elem_of_fmap. exists (a, path). split; [|done].
      unfold missing_message. by rewrite location_absolute.
  - intros d Hok.
    destruct (missing_files os_path_exists context t) as [|m ms] eqn:Em;
      [|done].
    injection Hok as ->. split.
    + destruct (os_path_exists path) eqn:E; [done|].
      pose proof (Hmissing eq_refl) as Hm. by apply not_elem_of_nil in Hm.
    + rewrite Hd.
      destruct (last (filter (λ file, file.2 = path) (declared_files t)))
        as [[a' p]|] eqn:El.
      * apply last_Some_elem_of, list_elem_of_filter in El as [Hp _].
        simpl in Hp. subst p. eexists. split; [done|].
        simpl. by apply location_absolute.
      * apply last_None in El.
        assert (Hf : (a, path) ∈ filter (λ file, file.2 = path)
                                        (declared_files t))
          by (by apply list_elem_of_filter).
        rewrite El in Hf. by apply not_elem_of_nil in Hf.
Qed.

Lemma build_filelist_dict_absolute_path_witness :
  ∃ lines,
    (build_filelist_dict only_work_dir absolute_path ∅).2
    = Err (TaskVerificationError (py_repr lines))
    ∧ "/etc/hostname" +:+ " doesn't exist!" ∈ lines.
Proof.
  refine (proj1 (build_filelist_dict_absolute_path only_work_dir absolute_path
                   absolute_path_task ∅
                   {| taskId := "upstream";
                      paths := ["public/build/target.zip"; "/etc/hostname"];
                      Data.formats := 0 |}
                   "/etc/hostname" _ _ _) _).
  - reflexivity.
  - right. left.
  - reflexivity.
  - reflexivity.
Defined.

Lemma iter_sort_formats_perm (n : nat) (xs : list string) :
  Nat.iter n _sort_formats xs ≡ₚ xs.
Proof.
  induction n as [|n IH]; [done|].
  simpl. etrans; [apply sort_with_perm|exact IH].
Qed.

(** The heap after [build_filelist_dict], list by list. *)
Lemma build_heap_perm
    (os_path_exists os_path_exists' : string → bool)
    (context : Context) (h0 : heap) (l : loc) :
  (build_filelist_dict os_path_exists context h0).1 !!! l ≡ₚ h0 !!! l
  ∧ (build_filelist_dict os_path_exists context h0).1 !!! l
    = (build_filelist_dict os_path_exists' context h0).1 !!! l.
Proof.
  destruct (task context) as [t|] eqn:Ht.
  - destruct (build_filelist_dict_spec os_path_exists context t h0 Ht)
      as (h & d & -> & _ & Hh).
    destruct (build_filelist_dict_spec os_path_exists' context t h0 Ht)
      as (h' & d' & -> & _ & Hh').
    simpl. rewrite Hh, Hh'. split; [apply iter_sort_formats_perm|done].
  - unfold build_filelist_dict. rewrite Ht. done.
Qed.

(** X14: whether or not it raises, [build_filelist_dict] leaves in every
    formats list the formats it held, reordered: the heap it leaves does not
    depend on which files are on disk, and each list is a rearrangement of
    what it was. *)
Theorem build_filelist_dict_heap
    (os_path_exists os_path_exists' : string → bool)
    (context : Context) (h0 : heap) (l : loc) :
  (build_filelist_dict os_path_exists context h0).1 !!! l ≡ₚ h0 !!! l
  ∧ (build_filelist_dict os_path_exists context h0).1 !!! l
    = (build_filelist_dict os_path_exists' context h0).1 !!! l.
Proof. apply build_heap_perm. Qed.

(** The entries of the returned dict. *)
Lemma filelist_entries_declared
    (os_path_exists : string → bool) (context : Context) (t : task_dict)
    (h0 : heap) (d : filelist) :
  task context = Some t →
  (build_filelist_dict os_path_exists context h0).2 = Ok d →
  ∀ path,
    (is_Some (d !! path) ↔ path ∈ (declared_files t).*2)
    ∧ ∀ e, d !! path = Some e →
           ∃ a, (a, path) ∈ declared_files t
                ∧ e = declared_entry context (a, path).
Proof.
  intros Ht Hok path.
  destruct (build_filelist_dict_spec os_path_exists context t h0 Ht)
    as (h & d' & Hout & Hd & _).
  rewrite Hout in Hok. simpl in Hok.
  destruct (missing_files os_path_exists context t); [|done].
  injection Hok as ->.
  assert (Hlast : ∀ file,
            last (filter (λ f, f.2 = path) (declared_files t)) = Some file →
            file ∈ declared_files t ∧ file.2 = path).
  { intros file Hfile. apply last_Some_elem_of in Hfile.
    by apply list_elem_of_filter in Hfile as [? ?]. }
  split; [split|].
  - rewrite Hd. intros [e He].
    destruct (last (filter (λ f, f.2 = path) (declared_files t)))
      as [file|] eqn:E; [|done].
    destruct (Hlast file eq_refl) as [Hin <-].
    apply list_elem_of_fmap. by exists file.
  - intros (file & -> & Hin)%list_elem_of_fmap. rewrite Hd.
    destruct (last (filter (λ f, f.2 = file.2) (declared_files t)))
      as [file'|] eqn:E; [by eexists|].
    apply last_None in E.
    assert (Hf : file ∈ filter (λ f, f.2 = file.2) (declared_files t))
      by (by apply list_elem_of_filter).
    rewrite E in Hf. by apply not_elem_of_nil in Hf.
  - intros e He. rewrite Hd in He.
    destruct (last (filter (λ f, f.2 = path) (declared_files t)))
      as [[a p]|] eqn:E; [|done].
    destruct (Hlast (a, p) eq_refl) as [Hin Hp]. simpl in Hp. subst p.
    injection He as <-. by exists a.
Qed.

(** X15: when [build_filelist_dict] returns, the keys of the dict are the
    declared relative paths, and the entry under a path is the one of a
    declaration of that path. *)
Theorem build_filelist_dict_keys
    (os_path_exists : string → bool) (context : Context) (t : task_dict)
    (h0 : heap) (d : filelist) :
  task context = Some t →
  (build_filelist_dict os_path_exists context h0).2 = Ok d →
  ∀ path,
    (is_Some (d !! path) ↔ path ∈ (declared_files t).*2)
    ∧ ∀ e, d !! path = Some e →
           ∃ a, (a, path) ∈ declared_files t
                ∧ e = declared_entry context (a, path).
Proof. apply filelist_entries_declared. Qed.

Lemma build_filelist_dict_keys_witness :
  is_Some (three_paths_filelist !! "b")
  ↔ "b" ∈ (declared_files three_paths_task).*2.
Proof.
  refine (proj1 (build_filelist_dict_keys all_staged three_paths
                   three_paths_task three_paths_heap three_paths_filelist
                   _ _ "b")).
  - reflexivity.
  - vm_compute. reflexivity.
Defined.

(** The formats collected from a list of groups. *)
Lemma elem_of_collected (h : heap) (arts : list artifact_dict)
    (acc : gset string) (f : string) :
  f ∈ foldl (update_formats h) acc arts
  ↔ f ∈ acc ∨ ∃ u, u ∈ arts ∧ f ∈ h !!! Data.formats u.
Proof.
  revert acc. induction arts as [|u arts IH]; intros acc; simpl.
  - split; [by left|]. intros [?|(u & Hu & _)]; [done|].
    by apply not_elem_of_nil in Hu.
  - rewrite IH. unfold update_formats.
    rewrite elem_of_union, elem_of_list_to_set. split.
    + intros [[?|?]|(v & Hv & Hf)]; [by left|right|right].
      * exists u. split; [by left|done].
      * exists v. split; [by right|done].
    + intros [?|(v & [->|Hv]%elem_of_cons & Hf)].
      * by left; left.
      * by left; right.
      * right. by exists v.
Qed.

(** The set [task_signing_formats] returns. *)
Lemma signing_formats_mem (context : Context) (h : heap) :
  (task context = None → task_signing_formats context h = None)
  ∧ ∀ t, task context = Some t →
         ∃ formats,
           task_signing_formats context h = Some formats
           ∧ ∀ f, f ∈ formats
                  ↔ ∃ u, u ∈ upstreamArtifacts (payload t)
                         ∧ f ∈ h !!! Data.formats u.
Proof.
  unfold task_signing_formats. split.
  - by intros ->.
  - intros t ->. simpl. eexists. split; [done|].
    intros f. rewrite elem_of_collected. split; [|by right].
    intros [Hempty|?]; [|done]. by apply not_elem_of_empty in Hempty.
Qed.

(** X16: on a context with a task, [task_signing_formats] returns the set of
    the formats that occur in the formats list of some group; without a task
    it raises. *)
Theorem task_signing_formats_spec (context : Context) (h : heap) :
  (task context = None → task_signing_formats context h = None)
  ∧ ∀ t, task context = Some t →
         ∃ formats,
           task_signing_formats context h = Some formats
           ∧ ∀ f, f ∈ formats
                  ↔ ∃ u, u ∈ upstreamArtifacts (payload t)
                         ∧ f ∈ h !!! Data.formats u.
Proof. apply signing_formats_mem. Qed.

Lemma task_signing_formats_spec_witness :
  ∃ formats,
    task_signing_formats three_paths three_paths_heap = Some formats
    ∧ ∀ f, f ∈ formats
           ↔ ∃ u, u ∈ upstreamArtifacts (payload three_paths_task)
                  ∧ f ∈ three_paths_heap !!! Data.formats u.
Proof.
  apply (proj2 (task_signing_formats_spec three_paths three_paths_heap)).
  reflexivity.
Defined.

Lemma collected_perm (h h' : heap) (arts : list artifact_dict)
    (acc : gset string) :
  (∀ l, h' !!! l ≡ₚ h !!! l) →
  foldl (update_formats h') acc arts = foldl (update_formats h) acc arts.
Proof.
  intros Hperm. revert acc.
  induction arts as [|u arts IH]; intros acc; [done|].
  simpl. rewrite IH. f_equal. unfold update_formats. f_equal.
  apply list_to_set_perm_L, Hperm.
Qed.

(** X17: [build_filelist_dict] does not change the signing formats of the
    task, read before or after it; and when it returns, the formats of every
    entry of the dict are among them. *)
Theorem build_filelist_dict_signing_formats
    (os_path_exists : string → bool) (context : Context) (t : task_dict)
    (h0 : heap) :
  task context = Some t →
  let out := build_filelist_dict os_path_exists context h0 in
  task_signing_formats context out.1 = task_signing_formats context h0
  ∧ ∀ d path e formats f,
      out.2 = Ok d →
      d !! path = Some e →
      task_signing_formats context h0 = Some formats →
      f ∈ out.1 !!! FileEntry.formats e →
      f ∈ formats.
Proof.
  intros Ht out.
  assert (Hperm : ∀ l, out.1 !!! l ≡ₚ h0 !!! l).
  { intros l.
    apply (build_heap_perm os_path_exists os_path_exists). }
  assert (Hsame : task_signing_formats context out.1
                  = task_signing_formats context h0).
  { unfold task_signing_formats. rewrite Ht. simpl. f_equal.
    by apply collected_perm. }
  split; [done|].
  intros d path e formats f Hd He Hformats Hf.
  destruct (proj2 (signing_formats_mem context h0) t Ht)
    as (formats' & Hformats' & Hmem).
  rewrite Hformats in Hformats'. injection Hformats' as <-.
  apply Hmem.
  destruct (filelist_entries_declared os_path_exists context t h0 d Ht Hd path)
    as [_ Hentry].
  destruct (Hentry e He) as (a & Hin & ->). simpl in Hf.
  exists a. split.
  - unfold declared_files in Hin.
    apply list_elem_of_bind in Hin as (u & Hin & Hu).
    apply list_elem_of_bind in Hin as (p & Hin & _).
    by apply list_elem_of_singleton in Hin as [= -> _].
  - by rewrite <- (Hperm (Data.formats a)).
Qed.

Lemma build_filelist_dict_signing_formats_witness :
  task_signing_formats three_paths
    (build_filelist_dict only_b_staged three_paths three_paths_heap).1
  = task_signing_formats three_paths three_paths_heap.
Proof.
  refine (proj1 (build_filelist_dict_signing_formats only_b_staged three_paths
                   three_paths_task three_paths_heap _)).
  reflexivity.
Defined.

End ArtifactResolverExtra.

(** ** Archive Lifecycle Manager *)

Module LifecycleExtra.
Import Py Resolver Lifecycle LifecycleViews.
Import ResolverFacts LifecycleFacts.

(** X18: once [output] is a list or a tuple (what a signing function with
    detached signatures returns), the loop of [sign] cannot take another
    format: it raises [TypeError] before making any call. *)
Theorem sign_loop_sequence_output
    {W} (h : handler W) (w : W) (path : string) (archive_ext : option string)
    (fmt : string) (rest l : list string) (recreate_archive : bool) :
  (∃ m, run h (sign_loop path archive_ext (fmt :: rest)
                         (PList l, recreate_archive)) w
        = (w, [], Err (TypeError m)))
  ∧ (∃ m, run h (sign_loop path archive_ext (fmt :: rest)
                           (PTuple l, recreate_archive)) w
          = (w, [], Err (TypeError m))).
Proof.
  split; simpl; unfold sign_step; rewrite resolver_by_cases; simpl;
    destruct (contains fmt archive_formats); simpl; by eexists.
Qed.

(** X19: a run of [sign] that returns ends as the last requested format
    says.  After an archive-aware format the last call is a packing call
    that writes to the input path, and [sign] returns the singleton list of
    the path that call returned.  After another format the last call is the
    call, for that format, of the function the resolver gives for it, and
    [sign] returns what that call returned, a path being wrapped into a
    singleton list.  With no format requested, no call is made and the input
    path is returned in a list. *)
Theorem sign_last_call {W} (h : handler W) (w : W) (path : string)
    (signing_formats : list string) (v : pyval) :
  (run h (sign path signing_formats) w).2 = Ok v →
  projT1 <$> (run_log h (sign path signing_formats) w).1
  = (run h (sign path signing_formats) w).1.2
  ∧ match last signing_formats with
    | None =>
        (run_log h (sign path signing_formats) w).1 = [] ∧ v = PList [path]
    | Some fmt =>
        ∃ ca,
          last (run_log h (sign path signing_formats) w).1 = Some ca
          ∧ if contains fmt archive_formats
            then ∃ s, packed path s ca ∧ v = PList [s]
            else ∃ f r,
                   _get_signing_function_from_format fmt = Ok f
                   ∧ signed f fmt r ca
                   ∧ v = match r with PStr s => PList [s] | _ => r end
    end.
Proof.
  intros Hrun.
  destruct (run_log_run h (sign path signing_formats) w) as [Hcalls Hres].
  split; [exact Hcalls|].
  rewrite <- Hres in Hrun.
  pose proof (run_log_ends_after _ None h _ w v
                (sign_ends_after path signing_formats) Hrun) as Hend.
  cbv beta in Hend.
  destruct (last signing_formats) as [fmt|].
  - destruct Hend as (ca & Hlast & Hend). exists ca. split.
    + by destruct (last (run_log h (sign path signing_formats) w).1).
    + destruct (contains fmt archive_formats); [exact Hend|].
      destruct Hend as (f & r & Hf & Hsigned & ->).
      exists f, r. split; [done|]. split; [done|]. by destruct r.
  - destruct Hend as [Hlast ->]. split; [|done].
    destruct (last (run_log h (sign path signing_formats) w).1) eqn:E; [done|].
    by apply last_None in E.
Qed.

Lemma sign_last_call_witness :
  projT1 <$> (run_log staging (sign "/work/app.zip" ["autograph_widevine"])
                      []).1
  = (run staging (sign "/work/app.zip" ["autograph_widevine"]) []).1.2
  ∧ ∃ ca,
      last (run_log staging (sign "/work/app.zip" ["autograph_widevine"])
                    []).1 = Some ca
      ∧ ∃ s, packed "/work/app.zip" s ca ∧ PList ["/work/app.zip"] = PList [s].
Proof.
  apply (sign_last_call staging [] "/work/app.zip" ["autograph_widevine"]
           (PList ["/work/app.zip"])).
  vm_compute. reflexivity.
Defined.

Lemma make_archive_never_returns (dirname : pyval) (output : string)
    (l0 : option answered) :
  ends_after (λ _ _, False) l0 (make_archive dirname None output).
Proof.
  unfold make_archive, await_get_files. simpl.
  intros [files|e]; simpl; done.
Qed.

(** X20: when the input path ends with none of [.zip], [.tar.gz] and
    [.tar.bz2] and the last requested format is archive-aware, [sign] never
    returns: every run raises, at the latest when the final repack finds no
    supported extension. *)
Theorem sign_without_extension_raises {W} (h : handler W) (w : W)
    (path : string) (signing_formats : list string) (fmt : string) :
  archive_ext_of path = None →
  last signing_formats = Some fmt →
  contains fmt archive_formats = true →
  ∃ e, (run h (sign path signing_formats) w).2 = Err e.
Proof.
  intros Hext Hlast Hfmt.
  assert (Hends : ends_after (λ _ (_ : pyval), False) None
                             (sign path signing_formats)).
  { unfold sign.
    eapply ends_after_bind; [apply sign_loop_ends_after|].
    intros l1 [output recreate] Hloop.
    rewrite Hlast, Hfmt in Hloop. destruct Hloop as [Hflag _].
    simpl in Hflag. subst recreate. rewrite Hext.
    eapply (ends_after_bind (λ _ _, False)); [|done].
    eapply (ends_after_bind (λ _ _, False)); [|done].
    apply make_archive_never_returns. }
  destruct (run h (sign path signing_formats) w).2 as [v|e] eqn:Hrun;
    [|by exists e].
  rewrite <- (proj2 (run_log_run h (sign path signing_formats) w)) in Hrun.
  destruct (run_log_ends_after _ None h _ w v Hends Hrun).
Qed.

Lemma sign_without_extension_raises_witness :
  ∃ e, (run staging (sign "/work/setup.exe" ["autograph_authenticode"])
            []).2 = Err e.
Proof.
  apply (sign_without_extension_raises staging [] "/work/setup.exe"
           ["autograph_authenticode"] "autograph_authenticode");
    reflexivity.
Defined.

(** *** Unpacking *)

Lemma make_archive_no_unpacking (dirname : pyval) (archive_ext : option string)
    (output : string) :
  calls_satisfy (λ c, ¬ is_unpacking c)
                (make_archive dirname archive_ext output).
Proof.
  unfold make_archive, await_get_files. simpl. split; [tauto|].
  intros [files|e]; simpl; [|done].
  repeat case_bool_decide; simpl; [| |done];
    (split; [tauto|]); intros [s|e]; done.
Qed.

Lemma sign_step_no_unpacking (path : string) (archive_ext : option string)
    (st : pyval * bool) (fmt : string) :
  contains fmt archive_formats = false →
  calls_satisfy (λ c, ¬ is_unpacking c) (sign_step path archive_ext st fmt).
Proof.
  intros Hfmt. destruct st as [output recreate]. unfold sign_step.
  rewrite Hfmt.
  apply calls_satisfy_bind; [apply calls_satisfy_lift|]. intros f.
  apply calls_satisfy_bind.
  - apply calls_satisfy_bind.
    + destruct output; simpl; [|done|done]. split; [tauto|done].
    + intros is_dir. apply calls_satisfy_bind; [|done].
      destruct is_dir; [|done].
      apply calls_satisfy_fmap, make_archive_no_unpacking.
  - intros [output' recreate'].
    apply calls_satisfy_bind; [|done].
    simpl. split; [tauto|]. intros x. by destruct x.
Qed.

(** X21: when none of the requested formats is archive-aware, no run of
    [sign] unpacks anything, whatever the file system and the signing
    functions answer. *)
Theorem sign_unpacks_for_archive_formats_only {W} (h : handler W) (w : W)
    (path : string) (signing_formats : list string) :
  Forall (λ fmt, contains fmt archive_formats = false) signing_formats →
  Forall (λ c, ¬ is_unpacking c) (run h (sign path signing_formats) w).1.2.
Proof.
  intros Hfmts. apply run_calls. unfold sign.
  apply calls_satisfy_bind.
  - generalize (PStr path, false).
    induction Hfmts as [|fmt rest Hfmt _ IH]; intros st; [done|].
    simpl. apply calls_satisfy_bind; [by apply sign_step_no_unpacking|].
    apply IH.
  - intros [output recreate].
    apply calls_satisfy_bind; [|done].
    destruct recreate; [|done].
    apply calls_satisfy_fmap, make_archive_no_unpacking.
Qed.

Lemma sign_unpacks_for_archive_formats_only_witness :
  Forall (λ c, ¬ is_unpacking c)
         (run staging (sign "/work/app.zip" ["sha2signcode"; "gpg"]) []).1.2.
Proof.
  apply (sign_unpacks_for_archive_formats_only staging []).
  repeat constructor.
Defined.

(** *** The signing calls of a run *)

Lemma run_no_signing {W A} (h : handler W) (p : prog A) (w : W) :
  calls_satisfy (λ c, signing_call c = None) p →
  signing_calls (run h p w).1.2 = [].
Proof.
  intros Hp. pose proof (run_calls _ h p w Hp) as Hall.
  unfold signing_calls.
  induction Hall as [|c calls Hc _ IH]; [done|].
  simpl. by rewrite Hc.
Qed.

Lemma signing_calls_app (calls1 calls2 : list call) :
  signing_calls (calls1 ++ calls2)
  = signing_calls calls1 ++ signing_calls calls2.
Proof. unfold signing_calls. by rewrite omap_app, fmap_app. Qed.

Lemma make_archive_no_signing (dirname : pyval) (archive_ext : option string)
    (output : string) :
  calls_satisfy (λ c, signing_call c = None)
                (make_archive dirname archive_ext output).
Proof.
  unfold make_archive, await_get_files. simpl. split; [done|].
  intros [files|e]; simpl; [|done].
  repeat case_bool_decide; simpl; [| |done];
    (split; [done|]); intros [s|e]; done.
Qed.

Lemma isdir_no_signing (output : pyval) :
  calls_satisfy (λ c, signing_call c = None) (isdir output).
Proof. destruct output; simpl; [|done|done]. split; done. Qed.

(** A step makes the signing call of its format, with the function the
    resolver gives, unless it raises before. *)
Lemma sign_step_signing {W} (h : handler W) (w : W) (path : string)
    (archive_ext : option string) (st : pyval * bool) (fmt : string) :
  signing_calls (run h (sign_step path archive_ext st fmt) w).1.2
  = requested [fmt]
  ∨ (signing_calls (run h (sign_step path archive_ext st fmt) w).1.2 = []
     ∧ ∃ e, (run h (sign_step path archive_ext st fmt) w).2 = Err e).
Proof.
  destruct st as [output recreate]. unfold sign_step, requested.
  simpl fmap. rewrite resolver_by_cases.
  set (f := match matching_items fmt with
            | [(_, f)] => f
            | _ => dict_get FORMAT_TO_SIGNING_FUNCTION fmt sign_file
            end).
  change (lift (Ok f) ≫= ?k) with (k f). cbv beta.
  match goal with
  | |- context [run h (?pre ≫= _) w] =>
      assert (Hpre : signing_calls (run h pre w).1.2 = [])
  end.
  { apply run_no_signing.
    destruct (contains fmt archive_formats).
    - apply calls_satisfy_bind; [apply isdir_no_signing|]. intros is_dir.
      apply calls_satisfy_bind; [|done].
      destruct is_dir; simpl; [done|]. split; [done|]. intros x. by destruct x.
    - apply calls_satisfy_bind; [apply isdir_no_signing|]. intros is_dir.
      apply calls_satisfy_bind; [|done].
      destruct is_dir; [|done].
      apply calls_satisfy_fmap, make_archive_no_signing. }
  rewrite run_bind.
  match goal with
  | |- context [run h ?pre w] =>
      destruct (run h pre w) as [[w1 calls1] [[output' recreate']|e]]
  end.
  - cbn [fst snd] in *. simpl.
    destruct (h (signing_func f output' fmt) w1) as [w2 [v|e]];
      left; cbn [fst snd];
      rewrite signing_calls_app, Hpre; reflexivity.
  - right. cbn [fst snd] in *. eauto.
Qed.

(** The signing calls of the loop are those of the requested formats, in
    order, up to where it stopped. *)
Lemma sign_loop_signing {W} (h : handler W) (w : W) (path : string)
    (archive_ext : option string) (signing_formats : list string)
    (st : pyval * bool) :
  signing_calls (run h (sign_loop path archive_ext signing_formats st) w).1.2
    `prefix_of` requested signing_formats
  ∧ ∀ st', (run h (sign_loop path archive_ext signing_formats st) w).2 = Ok st'
           → signing_calls
               (run h (sign_loop path archive_ext signing_formats st) w).1.2
             = requested signing_formats.
Proof.
  revert st w.
  induction signing_formats as [|fmt rest IH]; intros st w; [done|].
  simpl sign_loop. rewrite run_bind.
  pose proof (sign_step_signing h w path archive_ext st fmt) as Hstep.
  destruct (run h (sign_step path archive_ext st fmt) w)
    as [[w1 calls1] [st1|e]]; cbn [fst snd] in *.
  - destruct Hstep as [Hstep|[_ [e [=]]]].
    specialize (IH st1 w1). destruct IH as [Hpre Hall].
    rewrite signing_calls_app, Hstep.
    change (requested (fmt :: rest)) with (requested [fmt] ++ requested rest).
    split.
    + by apply prefix_app.
    + intros st' Hst'. by rewrite (Hall st' Hst').
  - split; [|done].
    change (requested (fmt :: rest)) with (requested [fmt] ++ requested rest).
    destruct Hstep as [->|[-> _]].
    + by apply prefix_app_r.
    + apply prefix_nil.
Qed.

(** X22: the signing functions [sign] calls are those the resolver gives for
    the requested formats, each called once with its format and in the order
    of the request: a run that raises has made the calls of a beginning of
    the request, a run that returns has made them all. *)
Theorem sign_signs_in_order {W} (h : handler W) (w : W) (path : string)
    (signing_formats : list string) :
  signing_calls (run h (sign path signing_formats) w).1.2
    `prefix_of` requested signing_formats
  ∧ ∀ v, (run h (sign path signing_formats) w).2 = Ok v
         → signing_calls (run h (sign path signing_formats) w).1.2
           = requested signing_formats.
Proof.
  unfold sign. rewrite run_bind.
  pose proof (sign_loop_signing h w path (archive_ext_of path) signing_formats
                (PStr path, false)) as [Hpre Hall].
  destruct (run h (sign_loop path (archive_ext_of path) signing_formats
                     (PStr path, false)) w)
    as [[w1 calls1] [[output recreate]|e]]; cbn [fst snd] in *; [|done].
  specialize (Hall _ eq_refl).
  match goal with
  | |- context [run h (?fin ≫= _) w1] =>
      assert (Hfin : signing_calls (run h (fin ≫= λ o, Ret (as_list o)) w1).1.2
                     = [])
  end.
  { apply run_no_signing. apply calls_satisfy_bind; [|done].
    destruct recreate; [|done].
    apply calls_satisfy_fmap, make_archive_no_signing. }
  rewrite signing_calls_app, Hfin, app_nil_r, Hall. done.
Qed.

Lemma sign_signs_in_order_witness :
  signing_calls
    (run staging (sign "/work/app.zip" ["autograph_widevine"; "gpg"]) []).1.2
  = requested ["autograph_widevine"; "gpg"].
Proof.
  apply (proj2 (sign_signs_in_order staging [] "/work/app.zip"
                  ["autograph_widevine"; "gpg"])
           (PList ["/work/app.zip"; "/work/app.zip.asc"])).
  vm_compute. reflexivity.
Defined.

(** *** Failures of the collaborators *)

Lemma propagates_bind {A B} (p : prog A) (k : A → prog B) :
  propagates p → (∀ a, propagates (k a)) → propagates (p ≫= k).
Proof.
  intros Hp Hk. induction p as [a|e|c k' IH]; simpl in *; [apply Hk|done|].
  destruct Hp as [Hfail Hk']. split.
  - intros x e Hx. change (k' x ≫= k = Raise e). by rewrite (Hfail x e Hx).
  - intros x. by apply IH.
Qed.

Lemma propagates_fmap {A B} (f : A → B) (p : prog A) :
  propagates p → propagates (f <$> p).
Proof. intros Hp. by apply (propagates_bind p (λ a, Ret (f a))). Qed.

Lemma propagates_lift {A} (r : result A) : propagates (lift r).
Proof. by destruct r. Qed.

Ltac await_propagates :=
  simpl; split;
  [intros [?|?] ?; simpl; [done|by intros [= ->]]
  |intros ?; apply propagates_lift].

Lemma make_archive_propagates (dirname : pyval) (archive_ext : option string)
    (output : string) :
  propagates (make_archive dirname archive_ext output).
Proof.
  unfold make_archive.
  apply propagates_bind; [await_propagates|]. intros files.
  repeat case_bool_decide; [await_propagates|await_propagates|done].
Qed.

Lemma isdir_propagates (output : pyval) : propagates (isdir output).
Proof. destruct output; simpl; [|done|done]. split; done. Qed.

Lemma sign_step_propagates (path : string) (archive_ext : option string)
    (st : pyval * bool) (fmt : string) :
  propagates (sign_step path archive_ext st fmt).
Proof.
  destruct st as [output recreate]. unfold sign_step.
  apply propagates_bind; [apply propagates_lift|]. intros f.
  apply propagates_bind.
  - destruct (contains fmt archive_formats).
    + apply propagates_bind; [apply isdir_propagates|]. intros is_dir.
      apply propagates_bind; [|done].
      destruct is_dir; [done|].
      apply propagates_fmap. await_propagates.
    + apply propagates_bind; [apply isdir_propagates|]. intros is_dir.
      apply propagates_bind; [|done].
      destruct is_dir; [|done].
      apply propagates_fmap, make_archive_propagates.
  - intros [output' recreate'].
    apply propagates_bind; [await_propagates|done].
Qed.

Lemma sign_propagates (path : string) (signing_formats : list string) :
  propagates (sign path signing_formats).
Proof.
  unfold sign. apply propagates_bind.
  - generalize (PStr path, false).
    induction signing_formats as [|fmt rest IH]; intros st; [done|].
    simpl. apply propagates_bind; [apply sign_step_propagates|]. apply IH.
  - intros [output recreate].
    apply propagates_bind; [|done].
    destruct recreate; [|done].
    apply propagates_fmap, make_archive_propagates.
Qed.

(** [run_trace] is [run] with the failures written down. *)
Lemma run_trace_run {W A} (h : handler W) (p : prog A) (w : W) :
  (run_trace h p w).1.*1 = (run h p w).1.2
  ∧ (run_trace h p w).2 = (run h p w).2.
Proof.
  revert w. induction p as [a|e|c k IH]; intros w; simpl; [done|done|].
  destruct (h c w) as [w1 x].
  specialize (IH x w1).
  destruct (run_trace h (k x) w1) as [trace r].
  destruct (run h (k x) w1) as [[w2 calls] r'].
  cbn [fst snd] in *. rewrite fmap_cons. destruct IH as [<- <-]. done.
Qed.

(** In a run of a coroutine that propagates, a failure is the last thing
    that happens, and the outcome. *)
Lemma run_trace_propagates {W A} (h : handler W) (p : prog A) (w : W)
    (c : call) (e : exn) :
  propagates p →
  (c, Some e) ∈ (run_trace h p w).1 →
  (run_trace h p w).2 = Err e ∧ last (run_trace h p w).1 = Some (c, Some e).
Proof.
  revert w. induction p as [a|e'|c' k IH]; intros w Hp; simpl.
  - by intros ?%elem_of_nil.
  - by intros ?%elem_of_nil.
  - destruct Hp as [Hfail Hk].
    destruct (h c' w) as [w1 x] eqn:Eh.
    specialize (IH x w1 (Hk x)). specialize (Hfail x).
    destruct (run_trace h (k x) w1) as [trace r] eqn:Et. cbn [fst snd] in *.
    intros [[= <- Hx]|Hin]%elem_of_cons.
    + symmetry in Hx. rewrite (Hfail e Hx) in Et. simpl in Et.
      injection Et as <- <-. by rewrite Hx.
    + destruct (IH Hin) as [-> Hlast]. split; [done|].
      destruct trace as [|t trace]; [done|]. exact Hlast.
Qed.

(** X23: [sign] handles no exception of its collaborators.  In every run,
    if unpacking, listing, packing or a signing function raises, that call
    is the last one made and [sign] raises the same exception. *)
Theorem sign_propagates_failures {W} (h : handler W) (w : W) (path : string)
    (signing_formats : list string) (c : call) (e : exn) :
  (c, Some e) ∈ (run_trace h (sign path signing_formats) w).1 →
  (run h (sign path signing_formats) w).2 = Err e
  ∧ last (run h (sign path signing_formats) w).1.2 = Some c
  ∧ last (run_trace h (sign path signing_formats) w).1 = Some (c, Some e).
Proof.
  intros Hin.
  destruct (run_trace_propagates h _ w c e
              (sign_propagates path signing_formats) Hin) as [Hr Hlast].
  destruct (run_trace_run h (sign path signing_formats) w) as [Hcalls Hres].
  rewrite <- Hres, <- Hcalls. split; [done|]. split; [|done].
  by rewrite fmap_last, Hlast.
Qed.

Lemma sign_propagates_failures_witness :
  (run unpack_fails (sign "/work/app.zip" ["autograph_widevine"]) []).2
  = Err (BackendError (Text "corrupt archive"))
  ∧ last (run unpack_fails (sign "/work/app.zip" ["autograph_widevine"])
              []).1.2
    = Some (extract_archive (PStr "/work/app.zip"))
  ∧ last (run_trace unpack_fails
                    (sign "/work/app.zip" ["autograph_widevine"]) []).1
    = Some (extract_archive (PStr "/work/app.zip"),
            Some (BackendError (Text "corrupt archive"))).
Proof.
  apply (sign_propagates_failures unpack_fails [] "/work/app.zip"
           ["autograph_widevine"]).
  assert (E : (run_trace unpack_fails
                 (sign "/work/app.zip" ["autograph_widevine"]) []).1
              = [(os_path_isdir "/work/app.zip", None);
                 (extract_archive (PStr "/work/app.zip"),
                  Some (BackendError (Text "corrupt archive")))])
    by (vm_compute; reflexivity).
  rewrite E. right. left.
Defined.

End LifecycleExtra.
